(** * Sample_Accident_Program.py: a shallow embedding and its properties

    The program writes a fixed list of eight accident records to a JSON
    file, reads the file back, runs a substring search and two
    most-frequent queries over the loaded list, and removes the file.

    Python values are embedded as the inductive type [value]; text is a
    [string] whose characters are the code points U+0000..U+00FF, with
    [str.lower], [repr] and the [json] codec written out for that range.
    Integers are unbounded; converting one of more than 4300 decimal
    digits to or from text raises [ValueError], as the interpreter's
    default limit has it. Floating-point numbers, code points above
    U+00FF and nesting deeper than [Json.max_depth] are outside the
    embedding: the decoder answers [Json.Unknown] on such text and nothing
    is stated about what the analysis prints for it. Functions that may
    raise return a [result]; functions that print return the lines
    printed; the file system is passed explicitly, and the environment
    decides whether writing, reading and removing a file go through. *)

From Stdlib Require Import ZArith Ascii String DecimalString Lia.
From stdpp Require Import base option list strings gmap.

Open Scope string_scope.
Open Scope list_scope.
Open Scope nat_scope.

(** ** Python text *)

Module Text.

Definition code (c : ascii) : N := N_of_ascii c.
Definition chr (n : N) : ascii := ascii_of_N n.

Definition dquote : ascii := chr 34.
Definition squote : ascii := chr 39.
Definition backslash : ascii := chr 92.
Definition newline : ascii := chr 10.

(** [str.lower] on one code point below U+0100: the ASCII capitals and the
    Latin-1 capitals U+00C0..U+00DE (U+00D7, the multiplication sign, is
    not a letter) move up by 32; every other code point is unchanged. *)
Definition lower_char (c : ascii) : ascii :=
  let n := code c in
  if ((65 <=? n) && (n <=? 90) || (192 <=? n) && (n <=? 222) && negb (n =? 215))%N
  then chr (n + 32) else c.

(** [s.lower()] *)
Fixpoint lower (s : string) : string :=
  match s with
  | EmptyString => EmptyString
  | String c rest => String (lower_char c) (lower rest)
  end.

(** [hay.startswith(needle)] *)
Fixpoint startswith (needle hay : string) : bool :=
  match needle, hay with
  | EmptyString, _ => true
  | String _ _, EmptyString => false
  | String a needle', String b hay' => Ascii.eqb a b && startswith needle' hay'
  end.

(** [needle in hay] for two strings: [needle] occurs at some offset. *)
Fixpoint contains (needle hay : string) : bool :=
  startswith needle hay ||
  match hay with
  | EmptyString => false
  | String _ hay' => contains needle hay'
  end.

Fixpoint has_char (c : ascii) (s : string) : bool :=
  match s with
  | EmptyString => false
  | String a rest => Ascii.eqb a c || has_char c rest
  end.

Fixpoint flat_map_chars (f : ascii -> string) (s : string) : string :=
  match s with
  | EmptyString => EmptyString
  | String c rest => f c +:+ flat_map_chars f rest
  end.

(** [sep.join(parts)] *)
Fixpoint join (sep : string) (parts : list string) : string :=
  match parts with
  | [] => EmptyString
  | [p] => p
  | p :: rest => p +:+ sep +:+ join sep rest
  end.

(** [' ' * n] *)
Fixpoint spaces (n : nat) : string :=
  match n with
  | O => EmptyString
  | S n' => String " " (spaces n')
  end.

Definition hex_digit (n : N) : ascii :=
  if (n <? 10)%N then chr (48 + n) else chr (87 + n).

(** [str(z)] for an integer: decimal digits, a leading minus sign for
    negatives. *)
Definition int_str (z : Z) : string := NilZero.string_of_int (Z.to_int z).

(** Code points below U+0100 that [repr] shows as they are. *)
Definition printable (n : N) : bool :=
  ((32 <=? n) && negb (n =? 127) && negb ((128 <=? n) && (n <=? 160))
   && negb (n =? 173))%N.

Definition repr_char (quote c : ascii) : string :=
  let n := code c in
  if Ascii.eqb c quote || Ascii.eqb c backslash then String backslash (String c "")
  else if (n =? 9)%N then String backslash "t"
  else if (n =? 10)%N then String backslash "n"
  else if (n =? 13)%N then String backslash "r"
  else if printable n then String c ""
  else String backslash
         (String "x" (String (hex_digit (n / 16)) (String (hex_digit (n mod 16)) ""))).

(** [repr(s)] for a string: single quotes unless the text holds a single
    quote and no double quote. *)
Definition repr_str (s : string) : string :=
  let quote := if has_char squote s && negb (has_char dquote s) then dquote else squote in
  String quote (flat_map_chars (repr_char quote) s) +:+ String quote "".

End Text.

(** ** Python values *)

(** The values [json.load] builds (floats apart). A dict is an association
    list in insertion order whose keys are strings, as every decoded JSON
    object and every record literal of the program is. *)
#[local] Set Warnings "-register-all".
Inductive value : Type :=
  | VNone
  | VBool (b : bool)
  | VInt (z : Z)
  | VStr (s : string)
  | VList (items : list value)
  | VDict (fields : list (string * value)).

(** A record of the data set: the fields of one dict. *)
Abbreviation record := (list (string * value)).

Inductive exc : Type :=
  | TypeError
  | AttributeError
  | KeyError
  | ValueError
  | JSONDecodeError
  | FileNotFoundError
  | OSError
  | OtherError.

(** The outcome of an expression that may raise. *)
Inductive result (A : Type) : Type :=
  | Ok (a : A)
  | Raise (e : exc).
Arguments Ok {A} a.
Arguments Raise {A} e.

Definition rbind {A B} (r : result A) (k : A -> result B) : result B :=
  match r with
  | Ok a => k a
  | Raise e => Raise e
  end.

Notation "'do' x <- r ; k" := (rbind r (fun x => k))
  (at level 10, x name, r at level 100, k at level 200).

(** [d.get(key)]: the value of the first (only) entry for [key]. *)
Fixpoint dict_get (d : record) (key : string) : option value :=
  match d with
  | [] => None
  | (k, v) :: rest => if String.eqb k key then Some v else dict_get rest key
  end.

(** [d[key] = v]: an existing key keeps its position. *)
Fixpoint dict_set (d : record) (key : string) (v : value) : record :=
  match d with
  | [] => [(key, v)]
  | (k, old) :: rest =>
      if String.eqb k key then (k, v) :: rest else (k, old) :: dict_set rest key v
  end.

Definition is_none (v : value) : bool :=
  match v with VNone => true | _ => false end.

Definition is_list (v : value) : bool :=
  match v with VList _ => true | _ => false end.

Definition is_dict (v : value) : bool :=
  match v with VDict _ => true | _ => false end.

(** Lists and dicts have no hash; every other value has. *)
Definition hashable (v : value) : bool :=
  match v with VList _ | VDict _ => false | _ => true end.

(** [a == b] between hashable values. [True] and [False] are the integers
    1 and 0. Where a list or a dict is involved the answer here is
    [false]; the program compares such values only after hashing them,
    which raises first. *)
Definition py_eq (a b : value) : bool :=
  match a, b with
  | VNone, VNone => true
  | VBool x, VBool y => Bool.eqb x y
  | VBool x, VInt z | VInt z, VBool x => (z =? (if x then 1 else 0))%Z
  | VInt x, VInt y => (x =? y)%Z
  | VStr s, VStr t => String.eqb s t
  | _, _ => false
  end.

(** The text of [repr(v)], where [repr] returns. *)
Fixpoint repr_text (v : value) : string :=
  match v with
  | VNone => "None"
  | VBool true => "True"
  | VBool false => "False"
  | VInt z => Text.int_str z
  | VStr s => Text.repr_str s
  | VList items => "[" +:+ Text.join ", " (map repr_text items) +:+ "]"
  | VDict fields =>
      "{" +:+ Text.join ", "
                (map (fun kv => let '(k, x) := kv in
                                Text.repr_str k +:+ ": " +:+ repr_text x) fields)
          +:+ "}"
  end.

(** The text of [str(v)], where [str] returns. *)
Definition str_text (v : value) : string :=
  match v with
  | VStr s => s
  | _ => repr_text v
  end.

(** [sys.get_int_max_str_digits()], at its default. *)
Definition max_str_digits : nat := 4300.

(** No integer in [v], at any depth, has more decimal digits than the
    limit. *)
Fixpoint within_digit_limit (v : value) : bool :=
  match v with
  | VInt z => String.length (Text.int_str (Z.abs z)) <=? max_str_digits
  | VList items => forallb within_digit_limit items
  | VDict fields => forallb (fun kv => let '(_, x) := kv in within_digit_limit x) fields
  | VNone | VBool _ | VStr _ => true
  end.

(** [str(v)], which is also how an f-string formats [v]: writing an integer
    of more digits than the limit in decimal raises [ValueError], also
    inside a list or a dict, whose elements go through [repr]. *)
Definition py_str (v : value) : result string :=
  if within_digit_limit v then Ok (str_text v) else Raise ValueError.

(** [key in x] for a string [key]: dict membership, list membership by
    [==], substring test on a string; the other values are not
    containers. *)
Definition py_in (key : string) (x : value) : result bool :=
  match x with
  | VDict d => Ok (match dict_get d key with Some _ => true | None => false end)
  | VList items => Ok (existsb (py_eq (VStr key)) items)
  | VStr s => Ok (Text.contains key s)
  | VNone | VBool _ | VInt _ => Raise TypeError
  end.

(** [x.get(key, default)]: only a dict has the method. *)
Definition py_get (x : value) (key : string) (default : value) : result value :=
  match x with
  | VDict d => Ok (match dict_get d key with Some v => v | None => default end)
  | _ => Raise AttributeError
  end.

(** [x[key]] for a string [key]. *)
Definition py_getitem (x : value) (key : string) : result value :=
  match x with
  | VDict d => match dict_get d key with Some v => Ok v | None => Raise KeyError end
  | _ => Raise TypeError
  end.

(** ** The analysis functions *)

(** One constructor per [print] call of the program, carrying the values
    that the call interpolates into its line. *)
Inductive output : Type :=
  | OutCreated (filename : string)
  | OutCreateError
  | OutKeyNotFound (search_key : string)
  | OutReading (filename : string)
  | OutFileNotFound (filename : string)
  | OutNotList
  | OutTotal (n : nat)
  | OutRule
  | OutAnalysis1 (search_term : string) (found : nat)
  | OutResult (id car date_time : value)
  | OutAnalysis2
  | OutCity (city : value) (count : nat)
  | OutAnalysis3
  | OutCar (car : value) (count : nat)
  | OutFileNotFoundExc (filename : string)
  | OutInvalidJson (filename : string)
  | OutUnexpected (e : exc)
  | OutCleaned (filename : string).

(** The [for record in data_list] loop of [search_accidents]; [results] is
    the list being appended to. *)
Fixpoint search_loop (search_key search_term : string)
    (data_list results : list value) : result (list value) :=
  match data_list with
  | [] => Ok results
  | record :: rest =>
      do x <- py_get record search_key (VStr "");
      do s <- py_str x;
      let record_value := Text.lower s in
      search_loop search_key search_term rest
        (if Text.contains search_term record_value
         then results ++ [record] else results)
  end.

(** [search_accidents(data_list, search_key, search_value)]: the lines it
    prints and what it returns or raises. *)
Definition search_accidents (data_list : list value) (search_key : string)
    (search_value : value) : list output * result (list value) :=
  match data_list with
  | [] => ([OutKeyNotFound search_key], Ok [])
  | first :: _ =>
      match py_in search_key first with
      | Raise e => ([], Raise e)
      | Ok false => ([OutKeyNotFound search_key], Ok [])
      | Ok true =>
          ([], do s <- py_str search_value;
               let search_term := Text.lower s in
               search_loop search_key search_term data_list [])
      end
  end.

(** [[record.get(key) for record in data_list if record.get(key) is not None]] *)
Fixpoint collect_items (data_list : list value) (key : string) : result (list value) :=
  match data_list with
  | [] => Ok []
  | record :: rest =>
      do x <- py_get record key VNone;
      do items <- collect_items rest key;
      Ok (if is_none x then items else x :: items)
  end.

(** A [collections.Counter]: a dict from elements to counts, in insertion
    order. *)
Abbreviation counter := (list (value * nat)).

(** [mapping[elem] = mapping.get(elem, 0) + 1]: the entry whose key equals
    [elem] is updated in place and keeps its key; a new key goes last. *)
Fixpoint counter_incr (mapping : counter) (elem : value) : counter :=
  match mapping with
  | [] => [(elem, 1)]
  | (k, n) :: rest =>
      if py_eq k elem then (k, S n) :: rest else (k, n) :: counter_incr rest elem
  end.

(** [Counter.update(iterable)] on a counter: hashing an element that has no
    hash raises [TypeError]. *)
Fixpoint count_elements (mapping : counter) (iterable : list value) : result counter :=
  match iterable with
  | [] => Ok mapping
  | elem :: rest =>
      if hashable elem then count_elements (counter_incr mapping elem) rest
      else Raise TypeError
  end.

(** [Counter(items)] *)
Definition Counter (items : list value) : result counter := count_elements [] items.

(** [max(entries, key=itemgetter(1))] given the best entry so far: a later
    entry replaces it only with a strictly larger count. *)
Fixpoint max_by_count (best : value * nat) (entries : counter) : value * nat :=
  match entries with
  | [] => best
  | e :: rest => max_by_count (if best.2 <? e.2 then e else best) rest
  end.

(** [counts.most_common(1)]: [heapq.nlargest(1, ...)], which is [max] over
    the entries in dict order, or the empty list for an empty counter. *)
Definition most_common_1 (counts : counter) : list (value * nat) :=
  match counts with
  | [] => []
  | e :: rest => [max_by_count e rest]
  end.

(** [find_most_frequent_by_key(data_list, key)] *)
Definition find_most_frequent_by_key (data_list : list value) (key : string)
    : result (value * nat) :=
  match data_list with
  | [] => Ok (VNone, 0)
  | _ :: _ =>
      do items <- collect_items data_list key;
      match items with
      | [] => Ok (VNone, 0)
      | _ :: _ =>
          do counts <- Counter items;
          match most_common_1 counts with
          | e :: _ => Ok e
          | [] => Ok (VNone, 0)
          end
      end
  end.

(** ** The [json] codec *)

(** [json.dump(obj, fp, indent=4)] and [json.load(fp)] as the program calls
    them, after CPython's [json.encoder] and [json.scanner]/[json.decoder]:
    default separators, [ensure_ascii], strict strings, no hooks. *)
Module Json.

Import Text.

(** [encode_basestring_ascii]: one character of a string. *)
Definition escape_char (c : ascii) : string :=
  let n := code c in
  if Ascii.eqb c dquote then String backslash (String dquote "")
  else if Ascii.eqb c backslash then String backslash (String backslash "")
  else if (n =? 10)%N then String backslash "n"
  else if (n =? 13)%N then String backslash "r"
  else if (n =? 9)%N then String backslash "t"
  else if (n =? 12)%N then String backslash "f"
  else if (n =? 8)%N then String backslash "b"
  else if ((32 <=? n) && (n <=? 126))%N then String c ""
  else String backslash
         (String "u" (String "0" (String "0"
            (String (hex_digit (n / 16)) (String (hex_digit (n mod 16)) ""))))).

Definition encode_string (s : string) : string :=
  String dquote (flat_map_chars escape_char s) +:+ String dquote "".

(** ['\n' + ' ' * (indent * level)] *)
Definition newline_indent (indent level : nat) : string :=
  String newline (spaces (indent * level)).

(** [_iterencode] at nesting [level], its chunks concatenated. *)
Fixpoint encode (indent level : nat) (o : value) : string :=
  match o with
  | VNone => "null"
  | VBool true => "true"
  | VBool false => "false"
  | VInt z => int_str z
  | VStr s => encode_string s
  | VList [] => "[]"
  | VList items =>
      "[" +:+ newline_indent indent (S level)
          +:+ join ("," +:+ newline_indent indent (S level))
                   (map (encode indent (S level)) items)
          +:+ newline_indent indent level +:+ "]"
  | VDict [] => "{}"
  | VDict fields =>
      "{" +:+ newline_indent indent (S level)
          +:+ join ("," +:+ newline_indent indent (S level))
                   (map (fun kv => let '(k, x) := kv in
                           encode_string k +:+ ": " +:+ encode indent (S level) x)
                        fields)
          +:+ newline_indent indent level +:+ "}"
  end.

(** The text that [json.dump(obj, fp, indent=indent)] writes. *)
Definition dumps (obj : value) (indent : nat) : string := encode indent 0 obj.

(** What scanning at a position gives: a value and the text after it, a
    [JSONDecodeError], the [ValueError] of an integer literal with more
    digits than the limit, or text outside the embedding. *)
Inductive parsed (A : Type) : Type :=
  | Got (a : A) (rest : string)
  | Bad
  | TooLong
  | Beyond.
Arguments Got {A} a rest.
Arguments Bad {A}.
Arguments TooLong {A}.
Arguments Beyond {A}.

Definition parsed_map {A B} (f : A -> B) (p : parsed A) : parsed B :=
  match p with
  | Got a rest => Got (f a) rest
  | Bad => Bad
  | TooLong => TooLong
  | Beyond => Beyond
  end.

Definition is_ws (c : ascii) : bool :=
  let n := code c in ((n =? 32) || (n =? 9) || (n =? 10) || (n =? 13))%N.

Fixpoint skip_ws (s : string) : string :=
  match s with
  | EmptyString => EmptyString
  | String c rest => if is_ws c then skip_ws rest else s
  end.

Definition is_digit (c : ascii) : bool :=
  let n := code c in ((48 <=? n) && (n <=? 57))%N.

Definition digit_val (c : ascii) : Z := Z.of_N (code c) - 48.

Definition hex_val (c : ascii) : option N :=
  let n := code c in
  if ((48 <=? n) && (n <=? 57))%N then Some (n - 48)%N
  else if ((97 <=? n) && (n <=? 102))%N then Some (n - 87)%N
  else if ((65 <=? n) && (n <=? 70))%N then Some (n - 55)%N
  else None.

Definition hex4 (a b c d : ascii) : option N :=
  match hex_val a, hex_val b, hex_val c, hex_val d with
  | Some x, Some y, Some z, Some w => Some (((x * 16 + y) * 16 + z) * 16 + w)%N
  | _, _, _, _ => None
  end.

(** The one-letter escapes of a JSON string. *)
Definition unescape (e : ascii) : option ascii :=
  if Ascii.eqb e dquote then Some dquote
  else if Ascii.eqb e backslash then Some backslash
  else if Ascii.eqb e "/" then Some "/"%char
  else if Ascii.eqb e "b" then Some (chr 8)
  else if Ascii.eqb e "f" then Some (chr 12)
  else if Ascii.eqb e "n" then Some (chr 10)
  else if Ascii.eqb e "r" then Some (chr 13)
  else if Ascii.eqb e "t" then Some (chr 9)
  else None.

(** [scanstring] from just after the opening quote. *)
Fixpoint scanstring (s : string) : parsed string :=
  match s with
  | EmptyString => Bad
  | String c rest =>
      if Ascii.eqb c dquote then Got "" rest
      else if Ascii.eqb c backslash then
        match rest with
        | EmptyString => Bad
        | String e rest' =>
            match unescape e with
            | Some ch => parsed_map (String ch) (scanstring rest')
            | None =>
                if Ascii.eqb e "u" then
                  match rest' with
                  | String h1 (String h2 (String h3 (String h4 rest''))) =>
                      match hex4 h1 h2 h3 h4 with
                      | Some n =>
                          if (n <? 256)%N
                          then parsed_map (String (chr n)) (scanstring rest'')
                          else Beyond
                      | None => Bad
                      end
                  | _ => Bad
                  end
                else Bad
            end
        end
      else if (code c <? 32)%N then Bad
      else parsed_map (String c) (scanstring rest)
  end.

Fixpoint take_digits (s : string) (acc : Z) : Z * string :=
  match s with
  | EmptyString => (acc, s)
  | String c rest =>
      if is_digit c then take_digits rest (10 * acc + digit_val c) else (acc, s)
  end.

(** After the integer part: does a fraction ([.] and a digit) or an
    exponent ([e] or [E], an optional sign, a digit) follow? Then the
    number is a float. *)
Definition float_follows (s : string) : bool :=
  match s with
  | String c rest =>
      if Ascii.eqb c "." then
        match rest with String d _ => is_digit d | EmptyString => false end
      else if Ascii.eqb c "e" || Ascii.eqb c "E" then
        match rest with
        | String d rest' =>
            if Ascii.eqb d "+" || Ascii.eqb d "-"
            then match rest' with String d' _ => is_digit d' | EmptyString => false end
            else is_digit d
        | EmptyString => false
        end
      else false
  | EmptyString => false
  end.

(** [_match_number]: an optional minus sign, then a single zero or a
    non-zero digit and any digits, and what follows them. The digits of an
    integer go through [int], which refuses more than the limit. *)
Definition match_number (s : string) : parsed value :=
  let '(negative, body) :=
    match s with
    | String c rest => if Ascii.eqb c "-" then (true, rest) else (false, s)
    | EmptyString => (false, s)
    end in
  let finish (n : Z) (rest : string) : parsed value :=
    if float_follows rest then Beyond
    else if within_digit_limit (VInt n)
         then Got (VInt (if negative then - n else n)%Z) rest
         else TooLong in
  match body with
  | EmptyString => Bad
  | String c rest =>
      if Ascii.eqb c "0" then finish 0%Z rest
      else if is_digit c then
        let '(n, rest') := take_digits rest (digit_val c) in finish n rest'
      else Bad
  end.

(** [s[len(prefix):]] when [s] starts with [prefix]. *)
Fixpoint strip_prefix (prefix s : string) : option string :=
  match prefix, s with
  | EmptyString, _ => Some s
  | String _ _, EmptyString => None
  | String a prefix', String b s' =>
      if Ascii.eqb a b then strip_prefix prefix' s' else None
  end.

(** The literals and the numbers of [scan_once]. *)
Definition scan_atom (s : string) : parsed value :=
  match strip_prefix "null" s, strip_prefix "true" s, strip_prefix "false" s with
  | Some rest, _, _ => Got VNone rest
  | _, Some rest, _ => Got (VBool true) rest
  | _, _, Some rest => Got (VBool false) rest
  | None, None, None =>
      if startswith "NaN" s || startswith "Infinity" s || startswith "-Infinity" s
      then Beyond
      else match_number s
  end.

(** [scan_once], [JSONObject] and [JSONArray]. [depth] bounds the nesting
    and [fuel] the number of calls in progress; where either runs out the
    answer is [Beyond]. The two loops start where an item is expected:
    after the opening bracket and white space of a non-empty container, or
    after a comma and white space. *)
Fixpoint scan_once (depth fuel : nat) (s : string) : parsed value :=
  match fuel with
  | O => Beyond
  | S fuel' =>
      match s with
      | EmptyString => Bad
      | String c rest =>
          if Ascii.eqb c dquote then parsed_map VStr (scanstring rest)
          else if Ascii.eqb c "{" then
            match depth with
            | O => Beyond
            | S depth' =>
                match skip_ws rest with
                | String "}" rest' => Got (VDict []) rest'
                | body => object_loop depth' fuel' body []
                end
            end
          else if Ascii.eqb c "[" then
            match depth with
            | O => Beyond
            | S depth' =>
                match skip_ws rest with
                | String "]" rest' => Got (VList []) rest'
                | body => array_loop depth' fuel' body []
                end
            end
          else scan_atom s
      end
  end

with object_loop (depth fuel : nat) (s : string) (pairs : record) : parsed value :=
  match fuel with
  | O => Beyond
  | S fuel' =>
      match s with
      | EmptyString => Bad
      | String c rest =>
          if Ascii.eqb c dquote then
            match scanstring rest with
            | Got key after_key =>
                match skip_ws after_key with
                | String ":" after_colon =>
                    match scan_once depth fuel' (skip_ws after_colon) with
                    | Got v after_value =>
                        let pairs' := dict_set pairs key v in
                        match skip_ws after_value with
                        | String "}" rest' => Got (VDict pairs') rest'
                        | String "," rest' => object_loop depth fuel' (skip_ws rest') pairs'
                        | _ => Bad
                        end
                    | Bad => Bad
                    | TooLong => TooLong
                    | Beyond => Beyond
                    end
                | _ => Bad
                end
            | Bad => Bad
            | TooLong => TooLong
            | Beyond => Beyond
            end
          else Bad
      end
  end

with array_loop (depth fuel : nat) (s : string) (values : list value) : parsed value :=
  match fuel with
  | O => Beyond
  | S fuel' =>
      match scan_once depth fuel' s with
      | Got v after_value =>
          match skip_ws after_value with
          | String "]" rest' => Got (VList (values ++ [v])) rest'
          | String "," rest' => array_loop depth fuel' (skip_ws rest') (values ++ [v])
          | _ => Bad
          end
      | Bad => Bad
      | TooLong => TooLong
      | Beyond => Beyond
      end
  end.

(** Nesting up to this depth is well within the interpreter's recursion
    limit. *)
Definition max_depth : nat := 100.

(** What [json.load] does on a file whose text is [s]. *)
Inductive loaded : Type :=
  | Loaded (obj : value)
  | Invalid
  | Overlong
  | Unknown.

(** [json.loads(s)]: white space, one value, white space, end of text. *)
Definition loads (s : string) : loaded :=
  match scan_once max_depth (2 * String.length s + 2) (skip_ws s) with
  | Got obj rest =>
      match skip_ws rest with
      | EmptyString => Loaded obj
      | String _ _ => Invalid
      end
  | Bad => Invalid
  | TooLong => Overlong
  | Beyond => Unknown
  end.

End Json.

(** ** The program *)

(** The dict literal of one accident, its keys in source order. *)
Definition accident (id : Z) (car location city date_time : string) : value :=
  VDict [("id", VInt id); ("car", VStr car); ("location", VStr location);
         ("city", VStr city); ("date_time", VStr date_time)].

(** [data] of [create_dummy_json]. *)
Definition dummy_data : list value :=
  [ accident 1 "Toyota Camry" "Main St, Anytown" "Anytown" "2024-10-25 08:30";
    accident 2 "Honda Civic" "Highway 101" "Springfield" "2024-10-25 15:45";
    accident 3 "Ford F-150" "Industrial Park Blvd" "Anytown" "2024-10-26 10:00";
    accident 4 "Toyota Camry" "Downtown Loop" "Metropolis" "2024-10-26 19:20";
    accident 5 "Tesla Model 3" "Residential Zone A" "Springfield" "2024-10-27 06:15";
    accident 6 "Honda Civic" "Main St, Anytown" "Anytown" "2024-10-27 12:00";
    accident 7 "Toyota Camry" "Highway 101" "Springfield" "2024-10-27 17:50";
    accident 8 "Ford F-150" "Ocean View Drive" "Anytown" "2024-10-28 14:00" ].

(** The file system: the text of each file that exists, by path. Opening
    with [encoding='utf-8'] makes the text what the program reads and
    writes. *)
Abbreviation files := (gmap string string).

(** What the environment does to [open(filename, 'w')] and the write: it
    goes through, or it raises [IOError] and leaves at the path what
    [left] says (no file, or a file with some text). *)
Inductive write_outcome : Type :=
  | WriteOk
  | WriteFails (left : option string).

(** What the environment does to opening and reading a file that exists:
    the text arrives, or an exception is raised. *)
Inductive read_outcome : Type :=
  | ReadOk
  | ReadRaises (e : exc).

(** What the environment does to [os.remove] of a file that exists: the
    file goes, or [OSError] is raised and the file stays. *)
Inductive remove_outcome : Type :=
  | RemoveOk
  | RemoveFails.

(** [create_dummy_json(filename)] *)
Definition create_dummy_json (w : write_outcome) (filename : string) (fs : files)
    : files * list output :=
  let data := dummy_data in
  match w with
  | WriteOk => (<[filename := Json.dumps (VList data) 4]> fs, [OutCreated filename])
  | WriteFails (Some text) => (<[filename := text]> fs, [OutCreateError])
  | WriteFails None => (delete filename fs, [OutCreateError])
  end.

(** Statements that print and may raise: the lines printed so far and the
    outcome. *)
Definition printing (A : Type) : Type := list output * result A.

Definition pbind {A B} (m : printing A) (k : A -> printing B) : printing B :=
  match m with
  | (out, Ok a) => let '(out', r) := k a in (out ++ out', r)
  | (out, Raise e) => (out, Raise e)
  end.

Definition print (line : output) : printing unit := ([line], Ok tt).

Definition eval {A} (r : result A) : printing A := ([], r).

Notation "'run' x <- m ; k" := (pbind m (fun x => k))
  (at level 10, x name, m at level 100, k at level 200).
Notation "'exec' m ; k" := (pbind m (fun _ => k))
  (at level 10, m at level 100, k at level 200).

(** A replacement field of an f-string: the value is formatted with
    [str]. *)
Definition format (v : value) : printing unit :=
  eval (do _ <- py_str v; Ok tt).

(** The [for result in search_results] loop and its f-string, whose
    fields are evaluated and formatted one after the other. *)
Fixpoint print_results (search_results : list value) : printing unit :=
  match search_results with
  | [] => ([], Ok tt)
  | res :: rest =>
      run id <- eval (py_getitem res "id");
      exec format id;
      run car <- eval (py_getitem res "car");
      exec format car;
      run date_time <- eval (py_getitem res "date_time");
      exec format date_time;
      exec print (OutResult id car date_time);
      print_results rest
  end.

(** The body of the [with] block once [json.load] has returned
    [data_list]. *)
Definition analyze (data_list : value) : printing unit :=
  match data_list with
  | VList records =>
      exec print (OutTotal (length records));
      exec print OutRule;
      let search_term := "Anytown" in
      run search_results <- search_accidents records "city" (VStr search_term);
      exec print (OutAnalysis1 search_term (length search_results));
      exec print_results search_results;
      exec print OutRule;
      run city <- eval (find_most_frequent_by_key records "city");
      exec print OutAnalysis2;
      exec format city.1;
      exec print (OutCity city.1 city.2);
      exec print OutRule;
      run car <- eval (find_most_frequent_by_key records "car");
      exec print OutAnalysis3;
      exec format car.1;
      exec print (OutCar car.1 car.2);
      print OutRule
  | _ => print OutNotList
  end.

(** The [try] block: [None] where the text of the file is outside the
    embedding. *)
Definition try_block (rd : read_outcome) (text : string) : option (printing unit) :=
  match rd with
  | ReadRaises e => Some ([], Raise e)
  | ReadOk =>
      match Json.loads text with
      | Json.Loaded data_list => Some (analyze data_list)
      | Json.Invalid => Some ([], Raise JSONDecodeError)
      | Json.Overlong => Some ([], Raise ValueError)
      | Json.Unknown => None
      end
  end.

(** The [except] clauses. *)
Definition handlers (filename : string) (m : printing unit) : list output :=
  match m with
  | (out, Ok _) => out
  | (out, Raise FileNotFoundError) => out ++ [OutFileNotFoundExc filename]
  | (out, Raise JSONDecodeError) => out ++ [OutInvalidJson filename]
  | (out, Raise e) => out ++ [OutUnexpected e]
  end.

(** The [finally] clause: the file system afterwards, the line printed,
    and the [OSError] of a removal that fails, which nothing catches. *)
Definition cleanup (rm : remove_outcome) (filename : string) (fs : files)
    : files * printing unit :=
  match fs !! filename with
  | Some _ =>
      match rm with
      | RemoveOk => (delete filename fs, ([OutCleaned filename], Ok tt))
      | RemoveFails => (fs, ([], Raise OSError))
      end
  | None => (fs, ([], Ok tt))
  end.

(** [read_and_analyze_json_file(filename)]: the file system afterwards
    and, where the embedding covers the text read, the lines printed and
    whether the call returns or lets an exception out. *)
Definition read_and_analyze_json_file (rd : read_outcome) (rm : remove_outcome)
    (filename : string) (fs : files) : files * option (printing unit) :=
  match fs !! filename with
  | None => (fs, Some ([OutReading filename; OutFileNotFound filename], Ok tt))
  | Some text =>
      let '(fs', (cleaned, outcome)) := cleanup rm filename fs in
      (fs', option_map
              (fun m => (OutReading filename :: handlers filename m ++ cleaned, outcome))
              (try_block rd text))
  end.

Definition json_filename : string := "sample_accident_data.json".

(** The [__main__] block. *)
Definition main (w : write_outcome) (rd : read_outcome) (rm : remove_outcome)
    (fs : files) : files * option (printing unit) :=
  let '(fs1, out1) := create_dummy_json w json_filename fs in
  let '(fs2, run2) := read_and_analyze_json_file rd rm json_filename fs1 in
  (fs2, option_map (fun '(out2, outcome) => (out1 ++ out2, outcome)) run2).

(** ** Specification vocabulary *)

(** [needle] occurs in [hay]: some text before it, some text after it. *)
Definition substring (needle hay : string) : Prop :=
  ∃ before after, hay = before +:+ needle +:+ after.

(** The text the search compares for a record: the field's value, or the
    empty string where the record has no such field, as a lower-cased
    string. *)
Definition field_text (key : string) (r : record) : string :=
  Text.lower (str_text (default (VStr "") (dict_get r key))).

(** The record matches the query on the field. *)
Definition field_matches (key : string) (query : value) (r : record) : Prop :=
  substring (Text.lower (str_text query)) (field_text key r).

(** [str] returns on what the search compares for the record: its value
    for the field holds no integer beyond the digit limit. *)
Definition field_has_text (key : string) (r : record) : Prop :=
  within_digit_limit (default (VStr "") (dict_get r key)) = true.


(** [str] returns on every value of the record. *)
Definition record_has_text (r : record) : Prop :=
  within_digit_limit (VDict r) = true.

(** The first record of the list has the field. *)
Definition first_has_key (key : string) (data : list record) : Prop :=
  match data with
  | [] => False
  | r :: _ => is_Some (dict_get r key)
  end.

(** There is no first record, or it lacks the field. *)
Definition first_lacks_key (key : string) (data : list record) : Prop :=
  match data with
  | [] => True
  | r :: _ => dict_get r key = None
  end.

(** The record holds a value other than [None] for the field. *)
Definition present (key : string) (r : record) : option value :=
  match dict_get r key with
  | Some VNone | None => None
  | Some v => Some v
  end.

(** The values of the field across the records, in record order, the
    records without a present value left out. *)
Definition field_values (key : string) (data : list record) : list value :=
  omap (present key) data.

(** The record has the three fields that the report prints for a match. *)
Definition has_report_fields (r : record) : Prop :=
  is_Some (dict_get r "id") ∧ is_Some (dict_get r "car")
  ∧ is_Some (dict_get r "date_time").

(** A line of the report that describes one match. *)
Definition is_result_line (line : output) : Prop :=
  match line with
  | OutResult _ _ _ => True
  | _ => False
  end.

(** A list all of whose elements are dicts. *)
Definition is_record_list (v : value) : bool :=
  match v with
  | VList items => forallb is_dict items
  | _ => false
  end.

(** How many of the [items] equal [w] (by [==]). *)
Fixpoint occurrences (w : value) (items : list value) : nat :=
  match items with
  | [] => 0
  | x :: rest => (if py_eq w x then 1 else 0) + occurrences w rest
  end.

(** What the counting part of [find_most_frequent_by_key] returns on a
    non-empty list of items. *)
Definition most_frequent (items : list value) : result (value * nat) :=
  do counts <- Counter items;
  match most_common_1 counts with
  | e :: _ => Ok e
  | [] => Ok (VNone, 0)
  end.

(** What a counter holds once [items] have been counted into it: each
    entry's count is the number of items equal to its key; the key is an
    item, and every item before it is equal to the key of an earlier
    entry; the keys are pairwise different; every item has an entry. *)
Record tallies (c : counter) (items : list value) : Prop := {
  tallies_count : ∀ p k n, c !! p = Some (k, n) → n = occurrences k items;
  tallies_first : ∀ p k n, c !! p = Some (k, n) →
    ∃ pre post, items = pre ++ k :: post ∧
      ∀ u, u ∈ pre → ∃ q e, q < p ∧ c !! q = Some e ∧ py_eq e.1 u = true;
  tallies_distinct : ∀ p q e e',
    p < q → c !! p = Some e → c !! q = Some e' → py_eq e.1 e'.1 = false;
  tallies_covers : ∀ u, u ∈ items → ∃ p e, c !! p = Some e ∧ py_eq e.1 u = true
}.

(** [m] is an entry of [l] with the largest count, and the first such. *)
Definition first_max (m : value * nat) (l : counter) : Prop :=
  ∃ p, l !! p = Some m ∧
       (∀ q e, l !! q = Some e → e.2 ≤ m.2) ∧
       (∀ q e, q < p → l !! q = Some e → e.2 < m.2).

(** * Properties *)

(** ** Text *)

Section TextFacts.

Lemma startswith_spec (needle hay : string) :
  Text.startswith needle hay = true ↔ ∃ after, hay = needle +:+ after.
Proof.
  revert hay. induction needle as [|a needle IH]; intros hay; simpl.
  - split; [intros _; by exists hay | done].
  - destruct hay as [|b hay].
    + split; [done | intros [after H]; discriminate H].
    + rewrite andb_true_iff, Ascii.eqb_eq, IH. split.
      * intros [-> [after ->]]. by exists after.
      * intros [after H]. injection H as -> ->. eauto.
Qed.

Lemma contains_spec (needle hay : string) :
  Text.contains needle hay = true ↔ substring needle hay.
Proof.
  unfold substring. induction hay as [|c hay IH]; simpl.
  - rewrite orb_false_r, startswith_spec. split.
    + intros [after H]. by exists "", after.
    + intros [[|b before] [after H]]; [by exists after | discriminate H].
  - rewrite orb_true_iff, startswith_spec, IH. split.
    + intros [[after H] | (before & after & ->)].
      * by exists "", after.
      * by exists (String c before), after.
    + intros [[|b before] [after H]].
      * left. by exists after.
      * right. injection H as -> ->. eauto.
Qed.



Lemma lower_empty (s : string) : Text.lower s = "" ↔ s = "".
Proof. destruct s; simpl; split; done. Qed.

End TextFacts.

#[global] Instance substring_dec (needle hay : string) : Decision (substring needle hay).
Proof.
  destruct (Text.contains needle hay) eqn:E.
  - left. by apply contains_spec.
  - right. intros H. apply contains_spec in H. congruence.
Defined.

#[global] Instance field_matches_dec (key : string) (query : value) (r : record) :
  Decision (field_matches key query r).
Proof. unfold field_matches. apply _. Defined.

(** ** search_accidents *)

Section Search.

Variables (search_key : string).

Lemma py_str_returns (v : value) :
  within_digit_limit v = true → py_str v = Ok (str_text v).
Proof. unfold py_str. by intros ->. Qed.


Lemma py_get_record (r : record) (dflt : value) :
  py_get (VDict r) search_key dflt = Ok (default dflt (dict_get r search_key)).
Proof. simpl. by destruct (dict_get r search_key). Qed.

(** The loop appends to [results] the matching records of the rest of the
    list, in order. *)
Lemma search_loop_filter (term : string) (data : list record) (results : list value) :
  Forall (field_has_text search_key) data →
  search_loop search_key term (map VDict data) results
  = Ok (results ++ map VDict (filter (λ r, substring term (field_text search_key r)) data)).
Proof.
  intros Hall. revert results. induction Hall as [|r data Hr _ IH]; intros results.
  - simpl. by rewrite app_nil_r.
  - rewrite filter_cons. cbn [map search_loop]. rewrite py_get_record. cbn [rbind].
    rewrite (py_str_returns _ Hr). cbn [rbind].
    rewrite IH. fold (field_text search_key r).
    destruct (decide (substring term (field_text search_key r))) as [Hin | Hout].
    + apply contains_spec in Hin. rewrite Hin. by rewrite <- app_assoc.
    + destruct (Text.contains term (field_text search_key r)) eqn:E; [|done].
      apply contains_spec in E. done.
Qed.


Lemma search_accidents_filter (data : list record) (query : value) :
  first_has_key search_key data →
  within_digit_limit query = true →
  Forall (field_has_text search_key) data →
  search_accidents (map VDict data) search_key query
  = ([], Ok (map VDict (filter (field_matches search_key query) data))).
Proof.
  destruct data as [|r data]; [done|]. intros [v Hv] Hquery Hall.
  unfold search_accidents. cbn [map py_in]. rewrite Hv.
  change (VDict r :: map VDict data) with (map VDict (r :: data)).
  rewrite (py_str_returns _ Hquery). cbn [rbind].
  by rewrite search_loop_filter.
Qed.


Lemma search_accidents_no_key (data : list record) (query : value) :
  first_lacks_key search_key data →
  search_accidents (map VDict data) search_key query
  = ([OutKeyNotFound search_key], Ok []).
Proof.
  destruct data as [|r data]; [done|]. simpl. intros Hnone.
  unfold search_accidents. cbn [py_in]. by rewrite Hnone.
Qed.

End Search.

(** ** Equality and counting *)

Section Equality.

Lemma py_eq_sym (a b : value) : py_eq a b = py_eq b a.
Proof.
  destruct a as [|[]| | | |], b as [|[]| | | |]; simpl; try done.
  - apply Z.eqb_sym.
  - apply String.eqb_sym.
Qed.

Lemma py_eq_trans (a b c : value) :
  py_eq a b = true → py_eq b c = true → py_eq a c = true.
Proof.
  destruct a as [|[]| | | |], b as [|[]| | | |], c as [|[]| | | |]; simpl;
    try done;
    rewrite ?Z.eqb_eq, ?String.eqb_eq; try lia; congruence.
Qed.

Lemma py_eq_refl (a : value) : hashable a = true → py_eq a a = true.
Proof.
  destruct a as [|[]| | | |]; simpl; try done; intros _.
  - apply Z.eqb_refl.
  - apply String.eqb_refl.
Qed.

(** Equal values are equal to the same values. *)
Lemma py_eq_cong (a b x : value) : py_eq a b = true → py_eq a x = py_eq b x.
Proof.
  intros Hab. destruct (py_eq b x) eqn:Hbx.
  - by apply py_eq_trans with b.
  - destruct (py_eq a x) eqn:Hax; [|done].
    rewrite <- Hbx. symmetry. apply py_eq_trans with a; [|done].
    by rewrite py_eq_sym.
Qed.

Lemma occurrences_app (w : value) (l1 l2 : list value) :
  occurrences w (l1 ++ l2) = occurrences w l1 + occurrences w l2.
Proof. induction l1 as [|x l1 IH]; simpl; [done | rewrite IH; lia]. Qed.

Lemma occurrences_cong (w u : value) (items : list value) :
  py_eq w u = true → occurrences w items = occurrences u items.
Proof.
  intros Hwu. induction items as [|x items IH]; simpl; [done|].
  by rewrite IH, (py_eq_cong w u x).
Qed.

Lemma occurrences_none (w : value) (items : list value) :
  (∀ u, u ∈ items → py_eq w u = false) → occurrences w items = 0.
Proof.
  induction items as [|x items IH]; intros Hno; simpl; [done|].
  rewrite (Hno x), IH; [done | | by left].
  intros u Hu. apply Hno. by right.
Qed.

Lemma occurrences_some (w : value) (items : list value) :
  occurrences w items ≠ 0 → ∃ u, u ∈ items ∧ py_eq w u = true.
Proof.
  induction items as [|x items IH]; simpl; [done|]. intros Hocc.
  destruct (py_eq w x) eqn:Hwx.
  - exists x. split; [by left | done].
  - destruct IH as (u & Hu & Hwu); [done|]. exists u. split; [by right | done].
Qed.

Lemma occurrences_member (w : value) (items : list value) :
  w ∈ items → hashable w = true → 1 ≤ occurrences w items.
Proof.
  intros Hin Hw. apply list_elem_of_split in Hin as (l1 & l2 & ->).
  rewrite occurrences_app. simpl. rewrite py_eq_refl by done. lia.
Qed.

End Equality.

(** ** The counter *)

Section CounterFacts.

Lemma tallies_nil : tallies [] [].
Proof. split; intros *; try done. intros H. by apply elem_of_nil in H. Qed.

(** The two ways an increment goes: the first entry with an equal key is
    bumped, or no key is equal and a new entry is appended. *)
Lemma counter_incr_cases (c : counter) (x : value) :
  (∃ p k n, c !! p = Some (k, n) ∧ py_eq k x = true ∧
            (∀ q e, q < p → c !! q = Some e → py_eq e.1 x = false) ∧
            counter_incr c x !! p = Some (k, S n) ∧
            (∀ q, q ≠ p → counter_incr c x !! q = c !! q))
  ∨ ((∀ q e, c !! q = Some e → py_eq e.1 x = false) ∧
     counter_incr c x = c ++ [(x, 1)]).
Proof.
  induction c as [|[k n] c IH]; simpl.
  - right. split; [by intros [|q] e H | done].
  - destruct (py_eq k x) eqn:Hkx.
    + left. exists 0, k, n. repeat split; try done.
      * intros q e Hq. lia.
      * intros [|q] Hq; [done | done].
    + destruct IH as [(p & k' & n' & Hp & Hk' & Hbefore & Hbump & Hrest) | [Hnone ->]].
      * left. exists (S p), k', n'. repeat split; try done.
        -- intros [|q] e Hq He; simpl in He.
           ++ by injection He as <-.
           ++ apply (Hbefore q); [lia | done].
        -- intros [|q] Hq; [done|]. simpl. apply Hrest. lia.
      * right. split; [|done]. intros [|q] e He; simpl in He.
        -- by injection He as <-.
        -- by apply (Hnone q).
Qed.

(** The invariant is kept by counting one more element. *)
Lemma tallies_incr (c : counter) (items : list value) (x : value) :
  tallies c items → hashable x = true →
  tallies (counter_incr c x) (items ++ [x]).
Proof.
  intros [Hcount Hfirst Hdistinct Hcovers] Hx.
  destruct (counter_incr_cases c x)
    as [(p & k & n & Hp & Hkx & Hbefore & Hbump & Hrest) | [Hnone ->]].
  - (* the entry at [p] is bumped; keys stay where they are *)
    assert (Hkeys : ∀ q e', counter_incr c x !! q = Some e' →
              ∃ e, c !! q = Some e ∧ e.1 = e'.1 ∧
                   e'.2 = e.2 + (if py_eq e.1 x then 1 else 0)).
    { intros q e' He'. destruct (decide (q = p)) as [-> | Hne].
      - exists (k, n). rewrite Hbump in He'. injection He' as <-. simpl.
        rewrite Hkx. repeat split; [done | lia].
      - rewrite Hrest in He' by done. exists e'. repeat split; [done|].
        assert (py_eq e'.1 x = false) as ->; [|lia].
        destruct (decide (q < p)) as [Hlt | Hge]; [by apply (Hbefore q)|].
        destruct (py_eq e'.1 x) eqn:E; [|done].
        rewrite <- (Hdistinct p q (k, n) e'); [| lia | done | done]. simpl.
        symmetry. apply py_eq_trans with x; [done | by rewrite py_eq_sym]. }
    assert (Hback : ∀ q e, c !! q = Some e →
              ∃ e', counter_incr c x !! q = Some e' ∧ e'.1 = e.1).
    { intros q e He. destruct (decide (q = p)) as [-> | Hne].
      - exists (k, S n). split; [done|]. rewrite Hp in He. by injection He as <-.
      - exists e. by rewrite Hrest. }
    split.
    + intros q k' n' He'. apply Hkeys in He' as ([k0 n0] & He & Hk & Hn).
      simpl in *. subst k0. rewrite occurrences_app, <- (Hcount q k' n0 He).
      simpl. rewrite Hn. lia.
    + intros q k' n' He'. apply Hkeys in He' as ([k0 n0] & He & Hk & Hn).
      simpl in *. subst k0.
      destruct (Hfirst q k' n0 He) as (pre & post & -> & Hpre).
      exists pre, (post ++ [x]). split; [by rewrite <- app_assoc|].
      intros u Hu. destruct (Hpre u Hu) as (q' & e & Hlt & He0 & Heu).
      destruct (Hback q' e He0) as (e' & He' & Hk').
      exists q', e'. by rewrite Hk'.
    + intros q1 q2 e1 e2 Hlt H1 H2.
      apply Hkeys in H1 as (e1' & H1 & <- & _).
      apply Hkeys in H2 as (e2' & H2 & <- & _).
      by apply (Hdistinct q1 q2).
    + intros u Hu. apply elem_of_app in Hu as [Hu | Hu].
      * destruct (Hcovers u Hu) as (q & e & He & Heu).
        destruct (Hback q e He) as (e' & He' & Hk').
        exists q, e'. by rewrite Hk'.
      * apply list_elem_of_singleton in Hu as ->. by exists p, (k, S n).
  - (* no key equals [x]: no item does either, and a new entry goes last *)
    assert (Hfresh : occurrences x items = 0).
    { apply occurrences_none. intros u Hu.
      destruct (Hcovers u Hu) as (q & e & He & Heu).
      destruct (py_eq x u) eqn:E; [|done].
      rewrite <- (Hnone q e He). symmetry.
      apply py_eq_trans with u; [done | by rewrite py_eq_sym]. }
    assert (Hlookup : ∀ q e, (c ++ [(x, 1)]) !! q = Some e →
              c !! q = Some e ∨ (q = length c ∧ e = (x, 1))).
    { intros q e He. destruct (decide (q < length c)) as [Hlt | Hge].
      - left. by rewrite lookup_app_l in He.
      - right. rewrite lookup_app_r in He by lia.
        destruct (q - length c) as [|d] eqn:Hd; simpl in He; [|done].
        split; [lia | congruence]. }
    split.
    + intros q k n He. apply Hlookup in He as [He | [-> He]].
      * rewrite occurrences_app, <- (Hcount q k n He). simpl.
        pose proof (Hnone q (k, n) He) as Hk. simpl in Hk. rewrite Hk. lia.
      * injection He as -> ->. rewrite occurrences_app, Hfresh. simpl.
        by rewrite py_eq_refl.
    + intros q k n He. apply Hlookup in He as [He | [-> He]].
      * destruct (Hfirst q k n He) as (pre & post & -> & Hpre).
        exists pre, (post ++ [x]). split; [by rewrite <- app_assoc|].
        intros u Hu. destruct (Hpre u Hu) as (q' & e & Hlt & He0 & Heu).
        exists q', e. split; [done|]. split; [|done]. by apply lookup_app_l_Some.
      * injection He as -> ->. exists items, []. split; [done|].
        intros u Hu. destruct (Hcovers u Hu) as (q & e & He & Heu).
        exists q, e. pose proof (lookup_lt_Some _ _ _ He).
        split; [done|]. split; [|done]. by apply lookup_app_l_Some.
    + intros q1 q2 e1 e2 Hlt H1 H2.
      apply Hlookup in H2 as [H2 | [-> ->]].
      * pose proof (lookup_lt_Some _ _ _ H2).
        rewrite lookup_app_l in H1 by lia. by apply (Hdistinct q1 q2).
      * rewrite lookup_app_l in H1 by lia. by apply (Hnone q1).
    + intros u Hu. apply elem_of_app in Hu as [Hu | Hu].
      * destruct (Hcovers u Hu) as (q & e & He & Heu).
        exists q, e. split; [|done]. by apply lookup_app_l_Some.
      * apply list_elem_of_singleton in Hu as ->.
        exists (length c), (x, 1). split; [|by apply py_eq_refl].
        rewrite lookup_app_r by lia. by rewrite Nat.sub_diag.
Qed.

End CounterFacts.

Section CountElements.

Lemma count_elements_hashable (c c' : counter) (items : list value) :
  count_elements c items = Ok c' → Forall (λ x, hashable x = true) items.
Proof.
  revert c. induction items as [|x items IH]; intros c Hc; [done|].
  simpl in Hc. destruct (hashable x) eqn:Hx; [|done].
  constructor; [done | by apply (IH (counter_incr c x))].
Qed.

Lemma count_elements_total (c : counter) (items : list value) :
  Forall (λ x, hashable x = true) items → ∃ c', count_elements c items = Ok c'.
Proof.
  revert c. induction items as [|x items IH]; intros c Hall; [by exists c|].
  apply Forall_cons in Hall as [Hx Hall]. simpl. rewrite Hx. by apply IH.
Qed.

Lemma count_elements_unhashable (c : counter) (items : list value) :
  ¬ Forall (λ x, hashable x = true) items → count_elements c items = Raise TypeError.
Proof.
  revert c. induction items as [|x items IH]; intros c Hnot; [by destruct Hnot|].
  simpl. destruct (hashable x) eqn:Hx; [|done].
  apply IH. intros Hall. apply Hnot. by constructor.
Qed.

Lemma count_elements_tallies (c c' : counter) (seen items : list value) :
  tallies c seen → count_elements c items = Ok c' → tallies c' (seen ++ items).
Proof.
  revert c seen. induction items as [|x items IH]; intros c seen Hinv Hc.
  - simpl in Hc. injection Hc as <-. by rewrite app_nil_r.
  - simpl in Hc. destruct (hashable x) eqn:Hx; [|done].
    rewrite (assoc_L _ seen [x] items : seen ++ x :: items = (seen ++ [x]) ++ items).
    apply (IH (counter_incr c x)); [|done]. by apply tallies_incr.
Qed.

Lemma Counter_tallies (items : list value) (c : counter) :
  Counter items = Ok c → tallies c items.
Proof. intros Hc. by apply (count_elements_tallies [] c [] items tallies_nil). Qed.

(** [max_by_count] keeps the first entry with the largest count. *)
Lemma max_by_count_first_max (seen : counter) (best : value * nat) (entries : counter) :
  first_max best seen → first_max (max_by_count best entries) (seen ++ entries).
Proof.
  revert seen best. induction entries as [|e entries IH]; intros seen best Hbest.
  - simpl. by rewrite app_nil_r.
  - simpl.
    rewrite (assoc_L _ seen [e] entries : seen ++ e :: entries = (seen ++ [e]) ++ entries).
    apply IH. destruct Hbest as (p & Hp & Hmax & Hstrict).
    assert (Hlookup : ∀ q e', (seen ++ [e]) !! q = Some e' →
              seen !! q = Some e' ∨ (q = length seen ∧ e' = e)).
    { intros q e' He'. destruct (decide (q < length seen)) as [Hlt | Hge].
      - left. by rewrite lookup_app_l in He'.
      - right. rewrite lookup_app_r in He' by lia.
        destruct (q - length seen) as [|d] eqn:Hd; simpl in He'; [|done].
        split; [lia | congruence]. }
    destruct (best.2 <? e.2) eqn:Hlt.
    + apply Nat.ltb_lt in Hlt. exists (length seen). repeat split.
      * rewrite lookup_app_r by lia. by rewrite Nat.sub_diag.
      * intros q e' He'. apply Hlookup in He' as [He' | [-> ->]]; [|lia].
        specialize (Hmax q e' He'). lia.
      * intros q e' Hq He'. apply Hlookup in He' as [He' | [-> ->]]; [|lia].
        specialize (Hmax q e' He'). lia.
    + apply Nat.ltb_ge in Hlt. exists p. repeat split.
      * by apply lookup_app_l_Some.
      * intros q e' He'. apply Hlookup in He' as [He' | [-> ->]]; [|lia].
        by apply (Hmax q).
      * intros q e' Hq He'. apply Hlookup in He' as [He' | [-> ->]].
        -- by apply (Hstrict q).
        -- apply lookup_lt_Some in Hp. lia.
Qed.

Lemma most_common_1_first_max (c : counter) (m : value * nat) (others : list (value * nat)) :
  most_common_1 c = m :: others → first_max m c.
Proof.
  destruct c as [|e c]; [done|]. simpl. intros [= <- <-].
  apply (max_by_count_first_max [e] e c).
  exists 0. repeat split; [by intros [|q] e' [= <-] | intros q e' Hq; lia].
Qed.

Lemma most_common_1_nonempty (c : counter) :
  c ≠ [] → ∃ m, most_common_1 c = [m].
Proof. destruct c as [|e c]; [done|]. intros _. by eexists. Qed.

Lemma most_frequent_total (items : list value) :
  Forall (λ x, hashable x = true) items → ∃ e, most_frequent items = Ok e.
Proof.
  intros Hall. unfold most_frequent, Counter.
  destruct (count_elements_total [] items Hall) as [c ->]. simpl.
  destruct (most_common_1 c); by eexists.
Qed.

Lemma most_frequent_raises (items : list value) :
  ¬ Forall (λ x, hashable x = true) items → most_frequent items = Raise TypeError.
Proof.
  intros Hnot. unfold most_frequent, Counter.
  by rewrite count_elements_unhashable.
Qed.

Lemma most_frequent_hashable (items : list value) (e : value * nat) :
  most_frequent items = Ok e → Forall (λ x, hashable x = true) items.
Proof.
  unfold most_frequent. destruct (Counter items) as [c|] eqn:Hc; [|done].
  intros _. by apply (count_elements_hashable [] c).
Qed.

(** The returned value sits in the items, with only values of smaller
    count before it; its count is its number of occurrences, and no value
    occurs more often. *)
Lemma most_frequent_spec (items : list value) (v : value) (n : nat) :
  items ≠ [] → most_frequent items = Ok (v, n) →
  ∃ pre post, items = pre ++ v :: post ∧
    n = occurrences v items ∧ 1 ≤ n ∧
    (∀ w, occurrences w items ≤ n) ∧
    (∀ u, u ∈ pre → occurrences u items < n).
Proof.
  intros Hne Hres. unfold most_frequent in Hres.
  destruct (Counter items) as [c|] eqn:Hc; [|done]. simpl in Hres.
  pose proof (count_elements_hashable _ _ _ Hc) as Hhash.
  apply Counter_tallies in Hc as [Hcount Hfirst Hdistinct Hcovers].
  assert (c ≠ []) as Hcne.
  { intros ->. destruct items as [|x items]; [done|].
    destruct (Hcovers x) as (p & e & He & _); [by left | by destruct p]. }
  destruct (most_common_1_nonempty c Hcne) as [m Hm]. rewrite Hm in Hres.
  injection Hres as ->.
  apply most_common_1_first_max in Hm as (p & Hp & Hmax & Hstrict). simpl in *.
  destruct (Hfirst p v n Hp) as (pre & post & Hitems & Hpre).
  exists pre, post. split; [done|].
  assert (Hn : n = occurrences v items) by by apply (Hcount p).
  split; [done|]. split; [|split].
  - rewrite Hn. apply occurrences_member.
    + rewrite Hitems. apply elem_of_app. right. by left.
    + rewrite Forall_forall in Hhash. apply Hhash.
      rewrite Hitems. apply elem_of_app. right. by left.
  - intros w. destruct (decide (occurrences w items = 0)) as [-> | Hocc]; [lia|].
    apply occurrences_some in Hocc as (u & Hu & Hwu).
    destruct (Hcovers u Hu) as (q & [k m] & He & Hku). simpl in Hku.
    rewrite (occurrences_cong w u) by done.
    rewrite <- (occurrences_cong k u) by done.
    rewrite <- (Hcount q k m He). by apply (Hmax q (k, m)).
  - intros u Hu. destruct (Hpre u Hu) as (q & [k m] & Hq & He & Hku). simpl in Hku.
    rewrite <- (occurrences_cong k u) by done.
    rewrite <- (Hcount q k m He). by apply (Hstrict q (k, m)).
Qed.

End CountElements.

(** ** find_most_frequent_by_key *)

Section MostFrequent.

Variable key : string.

Lemma present_none (r : record) :
  present key r = None ↔ dict_get r key = None ∨ dict_get r key = Some VNone.
Proof.
  unfold present. destruct (dict_get r key) as [[]|]; split; intros H;
    try done; try (by left); try (by right); by destruct H.
Qed.

Lemma collect_items_records (data : list record) :
  collect_items (map VDict data) key = Ok (field_values key data).
Proof.
  unfold field_values. induction data as [|r data IH]; [done|].
  cbn [map collect_items omap list_omap]. rewrite py_get_record, IH. unfold present.
  by destruct (dict_get r key) as [[]|].
Qed.

Lemma field_values_nil (data : list record) :
  field_values key data = [] ↔ Forall (λ r, present key r = None) data.
Proof.
  unfold field_values. induction data as [|r data IH]; [done|].
  cbn [omap list_omap]. destruct (present key r) eqn:Hp.
  - split; [done|]. intros Hall. apply Forall_cons in Hall as [Hr _]. congruence.
  - rewrite IH. split; [by constructor|]. intros Hall. by apply Forall_cons in Hall as [_ ?].
Qed.

Lemma field_values_filter (data : list record) :
  field_values key (filter (λ r, is_Some (present key r)) data) = field_values key data.
Proof.
  unfold field_values. induction data as [|r data IH]; [done|].
  rewrite filter_cons. destruct (decide (is_Some (present key r))) as [[v Hv] | Hno].
  - cbn [omap list_omap]. by rewrite Hv, IH.
  - cbn [omap list_omap]. destruct (present key r) eqn:Hp; [|done].
    destruct Hno. by eexists.
Qed.

(** The function on a list of records, by the values of the field. *)
Lemma find_most_frequent_by_key_items (data : list record) :
  find_most_frequent_by_key (map VDict data) key
  = match field_values key data with
    | [] => Ok (VNone, 0)
    | _ :: _ => most_frequent (field_values key data)
    end.
Proof.
  destruct data as [|r data]; [done|].
  unfold find_most_frequent_by_key.
  change (map VDict (r :: data)) with (VDict r :: map VDict data) at 1.
  cbv beta iota.
  change (VDict r :: map VDict data) with (map VDict (r :: data)).
  rewrite collect_items_records. cbn [rbind].
  by destruct (field_values key (r :: data)).
Qed.

End MostFrequent.

(** ** The program's file handling *)

Section Program.

(** The file system after the call: the file is gone when the removal goes
    through, and nothing has changed when it does not. *)
Lemma read_and_analyze_fs (rd : read_outcome) (rm : remove_outcome)
    (filename : string) (fs : files) :
  (read_and_analyze_json_file rd rm filename fs).1
  = match rm with RemoveOk => delete filename fs | RemoveFails => fs end.
Proof.
  unfold read_and_analyze_json_file, cleanup.
  destruct (fs !! filename) as [text|] eqn:Hfs; simpl.
  - by destruct rm.
  - destruct rm; [|done]. symmetry. by apply delete_id.
Qed.

(** A file that exists, is read and decodes to something other than a
    list: the warning is the only line of the analysis; then the file is
    removed, or the removal fails and its error leaves the function. *)
Lemma read_and_analyze_not_list (rm : remove_outcome) (filename text : string)
    (fs : files) (v : value) :
  fs !! filename = Some text → Json.loads text = Json.Loaded v → is_list v = false →
  read_and_analyze_json_file ReadOk rm filename fs
  = match rm with
    | RemoveOk =>
        (delete filename fs,
         Some ([OutReading filename; OutNotList; OutCleaned filename], Ok tt))
    | RemoveFails => (fs, Some ([OutReading filename; OutNotList], Raise OSError))
    end.
Proof.
  intros Hfs Hload Hv. unfold read_and_analyze_json_file, cleanup, try_block.
  rewrite Hfs, Hload. by destruct v, rm.
Qed.

(** Lines that statements in sequence print all have a property that the
    lines of each statement have. *)
Lemma pbind_lines {A B} (P : output → Prop) (m : printing A) (k : A → printing B) :
  Forall P m.1 → (∀ a, Forall P (k a).1) → Forall P (pbind m k).1.
Proof.
  destruct m as [out [a|e]]; simpl; intros Hout Hk; [|done].
  specialize (Hk a). destruct (k a) as [out' r]. simpl in *.
  by apply Forall_app.
Qed.

Lemma search_accidents_lines (data : list value) (key : string) (query : value) :
  Forall (λ line, line ≠ OutNotList) (search_accidents data key query).1.
Proof.
  unfold search_accidents. destruct data as [|first rest]; [by repeat constructor|].
  destruct (py_in key first) as [[]|]; simpl; by repeat constructor.
Qed.

Lemma print_results_lines (found : list value) :
  Forall (λ line, line ≠ OutNotList) (print_results found).1.
Proof.
  induction found as [|res found IH]; [by constructor|].
  cbn [print_results].
  repeat (apply pbind_lines; [by repeat constructor | intros ?]).
  exact IH.
Qed.

(** On a list, whatever its elements, the analysis prints the number of
    elements first and never the shape warning. *)
Lemma analyze_list_lines (items : list value) :
  ∃ rest, (analyze (VList items)).1 = OutTotal (length items) :: OutRule :: rest
          ∧ Forall (λ line, line ≠ OutNotList) rest.
Proof.
  unfold analyze.
  set (k := λ _ : unit, pbind (search_accidents items "city" (VStr "Anytown")) _).
  assert (Hk : Forall (λ line, line ≠ OutNotList) (k tt).1).
  { unfold k.
    apply pbind_lines; [apply search_accidents_lines | intros found].
    apply pbind_lines; [by repeat constructor | intros ?].
    apply pbind_lines; [apply print_results_lines | intros ?].
    repeat (apply pbind_lines; [by repeat constructor | intros ?]).
    by repeat constructor. }
  exists (k tt).1. split; [|done].
  unfold print, pbind at 1 2. destruct (k tt) as [out r]. done.
Qed.

End Program.

(** * The claims *)




(** C2. On a non-empty list of records, [find_most_frequent_by_key]
    returns a pair whenever the field's values can be hashed, and not
    otherwise; the count of the pair it returns is at least the number of
    occurrences of every value of the field across the records; when some
    record has a value for the field, that count is the number of
    occurrences of the returned value. *)
Theorem most_frequent_count_is_highest (data : list record) (key : string) :
  data ≠ [] →
  (Forall (λ x, hashable x = true) (field_values key data) →
   ∃ v n, find_most_frequent_by_key (map VDict data) key = Ok (v, n)) ∧
  (∀ v n, find_most_frequent_by_key (map VDict data) key = Ok (v, n) →
     Forall (λ x, hashable x = true) (field_values key data) ∧
     (∀ w, occurrences w (field_values key data) ≤ n) ∧
     (field_values key data ≠ [] → occurrences v (field_values key data) = n)).
Proof.
  intros _. rewrite find_most_frequent_by_key_items. split.
  - intros Hall. destruct (field_values key data) as [|x items] eqn:Hitems.
    + by exists VNone, 0.
    + destruct (most_frequent_total _ Hall) as [[v n] Hres]. by exists v, n.
  - intros v n Hres. destruct (field_values key data) as [|x items] eqn:Hitems.
    + injection Hres as <- <-. split; [done|]. split; [done | done].
    + pose proof (most_frequent_hashable _ _ Hres) as Hhash.
      apply most_frequent_spec in Hres as (pre & post & _ & Hn & _ & Hmax & _); [|done].
      split; [done|]. split; [done | by intros _].
Qed.

Lemma most_frequent_count_is_highest_witness :
  let data := [[("car", VStr "Civic")]; [("car", VStr "Camry")]; [("car", VStr "Camry")]] in
  data ≠ [] ∧
  find_most_frequent_by_key (map VDict data) "car" = Ok (VStr "Camry", 2) ∧
  Forall (λ x, hashable x = true) (field_values "car" data) ∧
  (∀ w, occurrences w (field_values "car" data) ≤ 2) ∧
  (field_values "car" data ≠ [] → occurrences (VStr "Camry") (field_values "car" data) = 2).
Proof.
  split; [discriminate|]. split; [reflexivity|].
  refine (proj2 (most_frequent_count_is_highest
                   [[("car", VStr "Civic")]; [("car", VStr "Camry")]; [("car", VStr "Camry")]]
                   "car" _) (VStr "Camry") 2 _).
  - discriminate.
  - reflexivity.
Defined.

(** C3. Where [find_most_frequent_by_key] returns [(v, n)] and some record
    has a value for the field: [n] is the highest number of occurrences
    and [v] attains it, and [v] stands in the sequence of the field's
    values at a place before which no value with [n] occurrences stands.
    So among the values tied for the highest count, the returned one is
    the one that occurs first. *)
Theorem most_frequent_tie_first (data : list record) (key : string)
    (v : value) (n : nat) :
  find_most_frequent_by_key (map VDict data) key = Ok (v, n) →
  field_values key data ≠ [] →
  ∃ pre post, field_values key data = pre ++ v :: post ∧
    occurrences v (field_values key data) = n ∧
    (∀ w, occurrences w (field_values key data) ≤ n) ∧
    (∀ w u, occurrences w (field_values key data) = n → u ∈ pre → py_eq w u = false).
Proof.
  rewrite find_most_frequent_by_key_items. intros Hres Hne.
  destruct (field_values key data) as [|x items] eqn:Hitems; [done|].
  apply most_frequent_spec in Hres as (pre & post & Hsplit & Hn & _ & Hmax & Hpre); [|done].
  exists pre, post. repeat split; try done.
  intros w u Hw Hu. destruct (py_eq w u) eqn:Hwu; [|done].
  specialize (Hpre u Hu). rewrite <- (occurrences_cong w u) in Hpre by done. lia.
Qed.

Lemma most_frequent_tie_first_witness :
  let data := [[("city", VStr "Metropolis")]; [("city", VStr "Springfield")];
               [("city", VStr "Anytown")]; [("city", VStr "Anytown")];
               [("city", VStr "Springfield")]] in
  find_most_frequent_by_key (map VDict data) "city" = Ok (VStr "Springfield", 2) ∧
  ∃ pre post, field_values "city" data = pre ++ VStr "Springfield" :: post ∧
    occurrences (VStr "Springfield") (field_values "city" data) = 2 ∧
    (∀ w, occurrences w (field_values "city" data) ≤ 2) ∧
    (∀ w u, occurrences w (field_values "city" data) = 2 → u ∈ pre → py_eq w u = false).
Proof.
  split.
  - reflexivity.
  - apply (most_frequent_tie_first
             [[("city", VStr "Metropolis")]; [("city", VStr "Springfield")];
              [("city", VStr "Anytown")]; [("city", VStr "Anytown")];
              [("city", VStr "Springfield")]] "city" (VStr "Springfield") 2).
    + reflexivity.
    + discriminate.
Defined.

(** C4. On a list of records, [find_most_frequent_by_key] returns
    [(None, 0)] exactly when the list is empty or every record lacks the
    field or holds [None] for it; and such records do not count: the
    function gives the same on the list with them left out. *)
Theorem most_frequent_no_data (data : list record) (key : string) :
  (find_most_frequent_by_key (map VDict data) key = Ok (VNone, 0)
   ↔ data = [] ∨
     Forall (λ r, dict_get r key = None ∨ dict_get r key = Some VNone) data) ∧
  find_most_frequent_by_key (map VDict data) key
  = find_most_frequent_by_key
      (map VDict (filter (λ r, is_Some (present key r)) data)) key.
Proof.
  split.
  - rewrite find_most_frequent_by_key_items.
    assert (Hall : data = [] ∨
                   Forall (λ r, dict_get r key = None ∨ dict_get r key = Some VNone) data
                   ↔ field_values key data = []).
    { rewrite field_values_nil. split.
      - intros [-> | Hall]; [done|].
        eapply Forall_impl; [exact Hall|]. intros r Hr. by apply present_none.
      - intros Hall. right.
        eapply Forall_impl; [exact Hall|]. intros r Hr. by apply present_none. }
    rewrite Hall. destruct (field_values key data) as [|x items] eqn:Hitems; [done|].
    split; [|done]. intros Hres.
    apply most_frequent_spec in Hres as (pre & post & _ & _ & Hn & _); [lia | done].
  - rewrite !find_most_frequent_by_key_items. by rewrite field_values_filter.
Qed.

(** C5. On a list of records that is empty or whose first record lacks the
    field, [search_accidents] reports the missing key and returns the
    empty list, whatever the later records hold. *)
Theorem search_accidents_key_absent (data : list record) (key : string)
    (query : value) :
  first_lacks_key key data →
  search_accidents (map VDict data) key query = ([OutKeyNotFound key], Ok []).
Proof. apply search_accidents_no_key. Qed.

Lemma search_accidents_key_absent_witness :
  let data := [[("id", VInt 1)]; [("id", VInt 2); ("city", VStr "Anytown")]] in
  first_lacks_key "city" data ∧
  search_accidents (map VDict data) "city" (VStr "Anytown")
  = ([OutKeyNotFound "city"], Ok []).
Proof.
  split.
  - reflexivity.
  - apply (search_accidents_key_absent
             [[("id", VInt 1)]; [("id", VInt 2); ("city", VStr "Anytown")]]
             "city" (VStr "Anytown")).
    reflexivity.
Defined.

(** C6. The text that [create_dummy_json] writes for the eight records
    decodes to a list equal to the one that was encoded: the same records
    in the same order, each with the same fields and values. *)
Theorem dump_load_roundtrip (filename : string) (fs : files) :
  ∃ text,
    (create_dummy_json WriteOk filename fs).1 !! filename = Some text ∧
    text = Json.dumps (VList dummy_data) 4 ∧
    Json.loads text = Json.Loaded (VList dummy_data).
Proof.
  exists (Json.dumps (VList dummy_data) 4). split; [|split].
  - simpl. apply lookup_insert_eq.
  - reflexivity.
  - vm_compute. reflexivity.
Qed.

(** C7. On the eight records: the search over ["city"] with any query whose
    lower-cased form is ["anytown"] returns the records with ids 1, 3, 6
    and 8, in that order; the most frequent ["city"] is ["Anytown"] with
    count 4 and the most frequent ["car"] is ["Toyota Camry"] with
    count 3. *)
Theorem fixed_dataset_scenario (query : string) :
  Text.lower query = "anytown" →
  search_accidents dummy_data "city" (VStr query)
  = ([], Ok [ accident 1 "Toyota Camry" "Main St, Anytown" "Anytown" "2024-10-25 08:30";
              accident 3 "Ford F-150" "Industrial Park Blvd" "Anytown" "2024-10-26 10:00";
              accident 6 "Honda Civic" "Main St, Anytown" "Anytown" "2024-10-27 12:00";
              accident 8 "Ford F-150" "Ocean View Drive" "Anytown" "2024-10-28 14:00" ]) ∧
  find_most_frequent_by_key dummy_data "city" = Ok (VStr "Anytown", 4) ∧
  find_most_frequent_by_key dummy_data "car" = Ok (VStr "Toyota Camry", 3).
Proof.
  intros Hquery. split; [|split; reflexivity].
  unfold search_accidents, dummy_data. cbn [py_in accident dict_get String.eqb Ascii.eqb Bool.eqb].
  rewrite py_str_returns by done. cbn [rbind str_text]. rewrite Hquery.
  vm_compute. reflexivity.
Qed.

Lemma fixed_dataset_scenario_witness :
  Text.lower "AnyTOWN" = "anytown" ∧
  search_accidents dummy_data "city" (VStr "AnyTOWN")
  = ([], Ok [ accident 1 "Toyota Camry" "Main St, Anytown" "Anytown" "2024-10-25 08:30";
              accident 3 "Ford F-150" "Industrial Park Blvd" "Anytown" "2024-10-26 10:00";
              accident 6 "Honda Civic" "Main St, Anytown" "Anytown" "2024-10-27 12:00";
              accident 8 "Ford F-150" "Ocean View Drive" "Anytown" "2024-10-28 14:00" ]).
Proof.
  split; [reflexivity|].
  apply (fixed_dataset_scenario "AnyTOWN"). reflexivity.
Defined.

(** C8, as the program has it. When the file exists, is read, and its text
    decodes to a value that is not a list (an object or a scalar), the
    program prints the warning and runs no search and no frequency query;
    the file is then removed, unless the removal itself fails, in which
    case its error leaves the function and the file stays. A list passes
    the check whatever its elements are: the number of elements is printed,
    the analysis goes on, and the warning is not printed. *)
Theorem not_a_list_stops_analysis (rm : remove_outcome) (filename text : string)
    (fs : files) (v : value) :
  fs !! filename = Some text →
  Json.loads text = Json.Loaded v →
  (is_list v = false →
   read_and_analyze_json_file ReadOk rm filename fs
   = match rm with
     | RemoveOk =>
         (delete filename fs,
          Some ([OutReading filename; OutNotList; OutCleaned filename], Ok tt))
     | RemoveFails => (fs, Some ([OutReading filename; OutNotList], Raise OSError))
     end) ∧
  (∀ items, v = VList items →
   ∃ fs' rest outcome,
     read_and_analyze_json_file ReadOk rm filename fs
     = (fs', Some (OutReading filename :: OutTotal (length items) :: OutRule :: rest,
                   outcome))
     ∧ OutNotList ∉ rest).
Proof.
  intros Hfs Hload. split; [intros Hv; by apply (read_and_analyze_not_list rm filename text fs v)|].
  intros items ->. unfold read_and_analyze_json_file, try_block. rewrite Hfs, Hload.
  destruct (analyze_list_lines items) as (rest & Hlines & Hrest).
  destruct (analyze (VList items)) as [out r] eqn:Hrun. simpl in Hlines. subst out.
  destruct (cleanup rm filename fs) as [fs' [cleaned outcome]] eqn:Hclean.
  assert (Hcleaned : Forall (λ line, line ≠ OutNotList) cleaned).
  { unfold cleanup in Hclean. rewrite Hfs in Hclean.
    destruct rm; injection Hclean as <- <- <-; by repeat constructor. }
  assert (Hhandled : ∃ tail, handlers filename (OutTotal (length items) :: OutRule :: rest, r)
                             = OutTotal (length items) :: OutRule :: rest ++ tail
                             ∧ Forall (λ line, line ≠ OutNotList) tail).
  { destruct r as [[]|e]; [exists []; by rewrite app_nil_r|].
    destruct e; eexists; (split; [reflexivity | by repeat constructor]). }
  destruct Hhandled as (tail & Hhandlers & Htail).
  exists fs', ((rest ++ tail) ++ cleaned), outcome. split.
  { cbn [option_map]. by rewrite Hhandlers. }
  intros Hin. apply elem_of_app in Hin as [Hin | Hin];
    [apply elem_of_app in Hin as [Hin | Hin]|].
  - rewrite Forall_forall in Hrest. by apply (Hrest _ Hin).
  - rewrite Forall_forall in Htail. by apply (Htail _ Hin).
  - rewrite Forall_forall in Hcleaned. by apply (Hcleaned _ Hin).
Qed.

Lemma not_a_list_stops_analysis_witness :
  let fs : files := {[ "data.json" := "{}" ]} in
  fs !! "data.json" = Some "{}" ∧
  Json.loads "{}" = Json.Loaded (VDict []) ∧
  is_list (VDict []) = false ∧
  read_and_analyze_json_file ReadOk RemoveOk "data.json" fs
  = (delete "data.json" fs,
     Some ([OutReading "data.json"; OutNotList; OutCleaned "data.json"], Ok tt)).
Proof.
  split; [reflexivity|]. split; [reflexivity|]. split; [reflexivity|].
  refine (proj1 (not_a_list_stops_analysis RemoveOk "data.json" "{}"
                   {[ "data.json" := "{}" ]} (VDict []) _ _) _); reflexivity.
Defined.

(** C8 as stated fails on a list whose elements are not records: the text
    [[1]] decodes to a list that is not a sequence of records, yet no
    warning is printed; the search runs and raises, which is reported as
    an unexpected error. It also fails where the removal fails: the
    warning is printed for the text [{}], but the file is not cleaned
    up. *)
Lemma list_of_non_records_is_analyzed :
  let fs : files := {[ "data.json" := "[1]" ]} in
  let fs2 : files := {[ "data.json" := "{}" ]} in
  fs !! "data.json" = Some "[1]" ∧
  Json.loads "[1]" = Json.Loaded (VList [VInt 1]) ∧
  is_record_list (VList [VInt 1]) = false ∧
  search_accidents [VInt 1] "city" (VStr "Anytown") = ([], Raise TypeError) ∧
  read_and_analyze_json_file ReadOk RemoveOk "data.json" fs
  = (∅, Some ([OutReading "data.json"; OutTotal 1; OutRule;
               OutUnexpected TypeError; OutCleaned "data.json"], Ok tt)) ∧
  read_and_analyze_json_file ReadOk RemoveOk "data.json" fs
  ≠ (delete "data.json" fs,
     Some ([OutReading "data.json"; OutNotList; OutCleaned "data.json"], Ok tt)) ∧
  read_and_analyze_json_file ReadOk RemoveFails "data.json" fs2
  = (fs2, Some ([OutReading "data.json"; OutNotList], Raise OSError)).
Proof.
  split; [reflexivity|]. split; [reflexivity|]. split; [reflexivity|].
  split; [reflexivity|]. split; [|split].
  - vm_compute. reflexivity.
  - vm_compute. discriminate.
  - vm_compute. reflexivity.
Qed.






(** * Runs of the program *)

(** The run in which the write, the read and the removal go through. *)
Example main_success :
  main WriteOk ReadOk RemoveOk ∅
  = (∅, Some ([ OutCreated json_filename; OutReading json_filename;
                OutTotal 8; OutRule; OutAnalysis1 "Anytown" 4;
                OutResult (VInt 1) (VStr "Toyota Camry") (VStr "2024-10-25 08:30");
                OutResult (VInt 3) (VStr "Ford F-150") (VStr "2024-10-26 10:00");
                OutResult (VInt 6) (VStr "Honda Civic") (VStr "2024-10-27 12:00");
                OutResult (VInt 8) (VStr "Ford F-150") (VStr "2024-10-28 14:00");
                OutRule; OutAnalysis2; OutCity (VStr "Anytown") 4; OutRule;
                OutAnalysis3; OutCar (VStr "Toyota Camry") 3; OutRule;
                OutCleaned json_filename ], Ok tt)).
Proof. vm_compute. reflexivity. Qed.

(** The write fails and leaves no file: the analysis stops at the
    existence check. *)
Example main_missing_file :
  main (WriteFails None) ReadOk RemoveOk ∅
  = (∅, Some ([OutCreateError; OutReading json_filename; OutFileNotFound json_filename],
              Ok tt)).
Proof. vm_compute. reflexivity. Qed.

(** The write fails and leaves a truncated file: the text is not JSON. *)
Example main_invalid_json :
  main (WriteFails (Some "[{")) ReadOk RemoveOk ∅
  = (∅, Some ([OutCreateError; OutReading json_filename; OutInvalidJson json_filename;
               OutCleaned json_filename], Ok tt)).
Proof. vm_compute. reflexivity. Qed.

(** The file holds a single object: the shape check stops the analysis. *)
Example main_not_a_list :
  main (WriteFails (Some "{}")) ReadOk RemoveOk ∅
  = (∅, Some ([OutCreateError; OutReading json_filename; OutNotList;
               OutCleaned json_filename], Ok tt)).
Proof. vm_compute. reflexivity. Qed.

(** A matching record without an id: the loop over the results raises
    [KeyError] in the middle of the analysis. *)
Example main_unexpected_error :
  main (WriteFails (Some (Json.dumps (VList [VDict [("city", VStr "Anytown")]]) 4)))
    ReadOk RemoveOk ∅
  = (∅, Some ([OutCreateError; OutReading json_filename; OutTotal 1; OutRule;
               OutAnalysis1 "Anytown" 1; OutUnexpected KeyError;
               OutCleaned json_filename], Ok tt)).
Proof. vm_compute. reflexivity. Qed.

(** An integer literal of 4301 digits: [json.load] raises [ValueError],
    which the catch-all handler reports. *)
Example main_integer_beyond_limit :
  main (WriteFails (Some (Text.int_str (10 ^ 4300)))) ReadOk RemoveOk ∅
  = (∅, Some ([OutCreateError; OutReading json_filename; OutUnexpected ValueError;
               OutCleaned json_filename], Ok tt)).
Proof. vm_compute. reflexivity. Qed.

(** [True] and [1] are one key of the counter, kept as first inserted. *)
Example counter_bool_int :
  Counter [VBool true; VStr "a"; VInt 1; VStr "a"; VInt 1]
  = Ok [(VBool true, 3); (VStr "a", 2)].
Proof. reflexivity. Qed.

(** A value without a hash makes the frequency query raise. *)
Example most_frequent_unhashable :
  find_most_frequent_by_key [VDict [("city", VList [])]] "city" = Raise TypeError.
Proof. reflexivity. Qed.

(** * Further properties of the analysis functions *)

Section SearchFacts.

Lemma lower_char_idem (c : ascii) :
  Text.lower_char (Text.lower_char c) = Text.lower_char c.
Proof. destruct c as [[] [] [] [] [] [] [] []]; reflexivity. Qed.

Lemma lower_idem (s : string) : Text.lower (Text.lower s) = Text.lower s.
Proof.
  induction s as [|c s IH]; simpl; [done|]. by rewrite lower_char_idem, IH.
Qed.


Lemma append_empty (s : string) : s +:+ "" = s.
Proof.
  induction s as [|x s IH]; [done|].
  change (String x (s +:+ "") = String x s). by rewrite IH.
Qed.

Lemma substring_refl (s : string) : substring s s.
Proof. exists "", "". by rewrite append_empty. Qed.





(** What the loop gives on any list: where it returns, it has appended a
    sub-sequence of the list to [results], and every element of the list
    is a dict. *)
Lemma search_loop_returns (key term : string) (data results out : list value) :
  search_loop key term data results = Ok out →
  ∃ picked, out = results ++ picked ∧ sublist picked data
            ∧ Forall (λ x, is_dict x = true) data.
Proof.
  revert results. induction data as [|x data IH]; intros results Hloop.
  - simpl in Hloop. injection Hloop as <-. exists []. by rewrite app_nil_r.
  - simpl in Hloop. destruct x as [| | | | |d]; try done. cbn [py_get rbind] in Hloop.
    destruct (py_str _) as [s|]; [|done]. cbn [rbind] in Hloop.
    apply IH in Hloop as (picked & -> & Hsub & Hall).
    destruct (Text.contains _ _).
    + exists (VDict d :: picked). rewrite <- app_assoc. repeat split; try done.
      * by apply sublist_skip.
      * by constructor.
    + exists picked. repeat split; try done.
      * by apply sublist_cons.
      * by constructor.
Qed.


Lemma filter_head_matches {A} (P : A → Prop) `{!∀ x, Decision (P x)}
    (l : list A) (x : A) (rest : list A) :
  filter P l = x :: rest → P x ∧ Forall P rest.
Proof.
  intros Heq.
  assert (Hall : Forall P (filter P l)).
  { apply Forall_forall. intros y Hy. by apply list_elem_of_filter in Hy as [? _]. }
  rewrite Heq in Hall. by apply Forall_cons in Hall.
Qed.

End SearchFacts.

(** X1. Whatever the elements of the list are, a list returned by
    [search_accidents] is a sub-sequence of the list it was given (same
    elements, same order, nothing added), and each of its elements is a
    dict. *)
Theorem search_accidents_result_sublist (data : list value) (key : string)
    (query : value) (out : list value) :
  (search_accidents data key query).2 = Ok out →
  sublist out data ∧ Forall (λ x, is_dict x = true) out.
Proof.
  unfold search_accidents. destruct data as [|first rest].
  - simpl. intros [= <-]. done.
  - destruct (py_in key first) as [[]|]; cbn [snd]; try done.
    + destruct (py_str query) as [s|]; [|done]. cbn [rbind].
      intros Hloop. apply search_loop_returns in Hloop as (picked & -> & Hsub & Hall).
      rewrite app_nil_l. split; [done|]. rewrite Forall_forall in Hall |- *.
      intros x Hx. apply Hall. by eapply elem_of_sublist.
    + intros [= <-]. split; [apply sublist_nil_l | done].
Qed.

Lemma search_accidents_result_sublist_witness :
  let data := [VDict [("city", VStr "Anytown")]; VDict [("city", VStr "Springfield")];
               VDict [("city", VStr "Newtown")]] in
  let out := [VDict [("city", VStr "Anytown")]; VDict [("city", VStr "Newtown")]] in
  (search_accidents data "city" (VStr "town")).2 = Ok out ∧
  sublist out data ∧ Forall (λ x, is_dict x = true) out.
Proof.
  split; [reflexivity|].
  apply (search_accidents_result_sublist
           [VDict [("city", VStr "Anytown")]; VDict [("city", VStr "Springfield")];
            VDict [("city", VStr "Newtown")]] "city" (VStr "town")).
  reflexivity.
Defined.

(** X2. The letter case of a text query does not matter: the query and its
    lower-cased form give the same printed lines and the same outcome, on
    every list. *)
Theorem search_accidents_query_case (data : list value) (key query : string) :
  search_accidents data key (VStr (Text.lower query))
  = search_accidents data key (VStr query).
Proof.
  unfold search_accidents. rewrite !py_str_returns by done. cbn [rbind str_text].
  by rewrite lower_idem.
Qed.









Section FrequencyFacts.

Lemma collect_items_non_dict (data : list value) (key : string) :
  Exists (λ x, is_dict x = false) data → collect_items data key = Raise AttributeError.
Proof.
  induction 1 as [x data Hx | x data Hex IH].
  - by destruct x.
  - simpl. rewrite IH. by destruct x.
Qed.

Lemma field_values_no_none (key : string) (data : list record) :
  VNone ∉ field_values key data.
Proof.
  unfold field_values. rewrite list_elem_of_omap. intros (r & _ & Hr).
  unfold present in Hr. by destruct (dict_get r key) as [[]|].
Qed.

Lemma field_values_from_record (key : string) (data : list record) (v : value) :
  v ∈ field_values key data → ∃ r, r ∈ data ∧ dict_get r key = Some v.
Proof.
  unfold field_values. rewrite list_elem_of_omap. intros (r & Hr & Hv).
  exists r. split; [done|]. unfold present in Hv.
  destruct (dict_get r key) as [[]|]; congruence.
Qed.

Lemma field_values_length (key : string) (data : list record) :
  length (field_values key data) ≤ length data.
Proof.
  unfold field_values. induction data as [|r data IH]; [done|].
  cbn [omap list_omap]. destruct (present key r); simpl; lia.
Qed.

Lemma occurrences_length (w : value) (items : list value) :
  occurrences w items ≤ length items.
Proof.
  induction items as [|x items IH]; simpl; [done|]. destruct (py_eq w x); lia.
Qed.

Lemma occurrences_Permutation (w : value) (l1 l2 : list value) :
  l1 ≡ₚ l2 → occurrences w l1 = occurrences w l2.
Proof.
  induction 1 as [|x l1 l2 _ IH|x y l|l1 l2 l3 _ IH1 _ IH2]; simpl; lia.
Qed.

Lemma not_all_hashable (items : list value) :
  ¬ Forall (λ x, hashable x = true) items ↔ Exists (λ x, hashable x = false) items.
Proof.
  induction items as [|x items IH].
  - split; [intros H; by destruct H | intros H; by apply Exists_nil in H].
  - rewrite Exists_cons, <- IH, Forall_cons. destruct (hashable x); split.
    + intros H. right. intros Hall. by apply H.
    + intros [? | H] [_ Hall]; [done | by apply H].
    + intros _. by left.
    + by intros _ [? _].
Qed.

End FrequencyFacts.

(** X7. On a list of records, [find_most_frequent_by_key] raises
    [TypeError] exactly when the value some record holds for the field is
    a list or a dict, and it raises nothing else. *)
Theorem most_frequent_raises_on_unhashable (data : list record) (key : string) :
  (find_most_frequent_by_key (map VDict data) key = Raise TypeError
   ↔ Exists (λ x, hashable x = false) (field_values key data)) ∧
  (∀ e, find_most_frequent_by_key (map VDict data) key = Raise e → e = TypeError).
Proof.
  rewrite find_most_frequent_by_key_items, <- not_all_hashable.
  destruct (field_values key data) as [|x items] eqn:Hitems.
  - split; [|done]. split; [done|]. intros H. by destruct H.
  - destruct (decide (Forall (λ x, hashable x = true) (x :: items))) as [Hall | Hnot].
    + destruct (most_frequent_total _ Hall) as [e He]. rewrite He.
      split; [|done]. split; [done | by intros []].
    + rewrite (most_frequent_raises _ Hnot). split; [done | congruence].
Qed.

(** X8. On a list with an element that is not a dict,
    [find_most_frequent_by_key] raises [AttributeError]. *)
Theorem most_frequent_non_dict (data : list value) (key : string) :
  Exists (λ x, is_dict x = false) data →
  find_most_frequent_by_key data key = Raise AttributeError.
Proof.
  intros Hex. unfold find_most_frequent_by_key.
  destruct data as [|x data]; [by apply Exists_nil in Hex|].
  by rewrite collect_items_non_dict.
Qed.

Lemma most_frequent_non_dict_witness :
  Exists (λ x, is_dict x = false) [VDict [("city", VStr "Anytown")]; VInt 3] ∧
  find_most_frequent_by_key [VDict [("city", VStr "Anytown")]; VInt 3] "city"
  = Raise AttributeError.
Proof.
  assert (Hex : Exists (λ x, is_dict x = false) [VDict [("city", VStr "Anytown")]; VInt 3])
    by (apply Exists_cons_tl; by apply Exists_cons_hd).
  split; [exact Hex|].
  exact (most_frequent_non_dict [VDict [("city", VStr "Anytown")]; VInt 3] "city" Hex).
Defined.

(** X9. What [find_most_frequent_by_key] returns when some record has a
    value for the field: a value that one of the records holds for the
    field, never [None], with a count between 1 and the number of
    records. *)
Theorem most_frequent_result_bounds (data : list record) (key : string)
    (v : value) (n : nat) :
  find_most_frequent_by_key (map VDict data) key = Ok (v, n) →
  field_values key data ≠ [] →
  (∃ r, r ∈ data ∧ dict_get r key = Some v) ∧ v ≠ VNone ∧ 1 ≤ n ≤ length data.
Proof.
  rewrite find_most_frequent_by_key_items. intros Hres Hne.
  destruct (field_values key data) as [|x items] eqn:Hitems; [done|].
  apply most_frequent_spec in Hres as (pre & post & Hsplit & Hn & Hpos & _); [|done].
  assert (Hin : v ∈ field_values key data).
  { rewrite Hitems, Hsplit. apply elem_of_app. right. by left. }
  split; [by apply field_values_from_record|]. split.
  - intros ->. by apply (field_values_no_none key data).
  - split; [done|]. rewrite Hn, <- Hitems.
    etrans; [apply occurrences_length | apply field_values_length].
Qed.

Lemma most_frequent_result_bounds_witness :
  let data := [[("car", VStr "Civic")]; [("id", VInt 2)]; [("car", VStr "Civic")]] in
  find_most_frequent_by_key (map VDict data) "car" = Ok (VStr "Civic", 2) ∧
  field_values "car" data ≠ [] ∧
  (∃ r, r ∈ data ∧ dict_get r "car" = Some (VStr "Civic")) ∧
  VStr "Civic" ≠ VNone ∧ 1 ≤ 2 ≤ length data.
Proof.
  split; [reflexivity|]. split; [discriminate|].
  apply (most_frequent_result_bounds
           [[("car", VStr "Civic")]; [("id", VInt 2)]; [("car", VStr "Civic")]]
           "car" (VStr "Civic") 2); [reflexivity | discriminate].
Defined.

(** X10. The count does not depend on the order of the records: two lists
    of records that are rearrangements of each other get the same count
    (the value may differ, by the order of first occurrence). *)
Theorem most_frequent_count_order_independent (d1 d2 : list record) (key : string)
    (v1 v2 : value) (n1 n2 : nat) :
  d1 ≡ₚ d2 →
  find_most_frequent_by_key (map VDict d1) key = Ok (v1, n1) →
  find_most_frequent_by_key (map VDict d2) key = Ok (v2, n2) →
  n1 = n2.
Proof.
  intros Hperm. rewrite !find_most_frequent_by_key_items.
  assert (Hitems : field_values key d1 ≡ₚ field_values key d2)
    by (unfold field_values; by rewrite Hperm).
  destruct (field_values key d1) as [|x1 items1] eqn:H1.
  - apply Permutation_nil in Hitems. rewrite Hitems. by intros [= <- <-] [= <- <-].
  - destruct (field_values key d2) as [|x2 items2] eqn:H2.
    { symmetry in Hitems. by apply Permutation_nil in Hitems. }
    intros Hres1 Hres2.
    apply most_frequent_spec in Hres1 as (_ & _ & _ & Hn1 & _ & Hmax1 & _); [|done].
    apply most_frequent_spec in Hres2 as (_ & _ & _ & Hn2 & _ & Hmax2 & _); [|done].
    specialize (Hmax1 v2). specialize (Hmax2 v1).
    rewrite (occurrences_Permutation v2 _ _ Hitems) in Hmax1.
    rewrite <- (occurrences_Permutation v1 _ _ Hitems) in Hmax2. lia.
Qed.

Lemma most_frequent_count_order_independent_witness :
  let d1 := [[("city", VStr "Anytown")]; [("city", VStr "Springfield")]] in
  let d2 := [[("city", VStr "Springfield")]; [("city", VStr "Anytown")]] in
  d1 ≡ₚ d2 ∧
  find_most_frequent_by_key (map VDict d1) "city" = Ok (VStr "Anytown", 1) ∧
  find_most_frequent_by_key (map VDict d2) "city" = Ok (VStr "Springfield", 1) ∧
  1 = 1.
Proof.
  assert (Hperm : [[("city", VStr "Anytown")]; [("city", VStr "Springfield")]]
                  ≡ₚ [[("city", VStr "Springfield")]; [("city", VStr "Anytown")]])
    by apply perm_swap.
  split; [exact Hperm|]. split; [reflexivity|]. split; [reflexivity|].
  exact (most_frequent_count_order_independent _ _ "city"
           (VStr "Anytown") (VStr "Springfield") 1 1 Hperm eq_refl eq_refl).
Defined.

(** X11. A value of the field that occurs strictly more often than every
    value different from it is the one returned, whatever the order of the
    records. *)
Theorem most_frequent_clear_winner (data : list record) (key : string)
    (v w : value) (n : nat) :
  find_most_frequent_by_key (map VDict data) key = Ok (v, n) →
  w ∈ field_values key data →
  (∀ u, u ∈ field_values key data → py_eq w u = false →
        occurrences u (field_values key data) < occurrences w (field_values key data)) →
  py_eq w v = true.
Proof.
  rewrite find_most_frequent_by_key_items. intros Hres Hw Hwins.
  destruct (field_values key data) as [|x items] eqn:Hitems.
  { by apply elem_of_nil in Hw. }
  apply most_frequent_spec in Hres as (pre & post & Hsplit & Hn & _ & Hmax & _); [|done].
  destruct (py_eq w v) eqn:Hwv; [done|].
  assert (Hin : v ∈ x :: items).
  { rewrite Hsplit. apply elem_of_app. right. by left. }
  specialize (Hwins v Hin Hwv). specialize (Hmax w). lia.
Qed.

Lemma most_frequent_clear_winner_witness :
  let data := [[("car", VStr "Civic")]; [("car", VStr "Camry")]; [("car", VStr "Camry")]] in
  find_most_frequent_by_key (map VDict data) "car" = Ok (VStr "Camry", 2) ∧
  VStr "Camry" ∈ field_values "car" data ∧
  py_eq (VStr "Camry") (VStr "Camry") = true.
Proof.
  split; [reflexivity|].
  assert (Hin : VStr "Camry" ∈ field_values "car"
            [[("car", VStr "Civic")]; [("car", VStr "Camry")]; [("car", VStr "Camry")]])
    by (right; left).
  split; [exact Hin|].
  apply (most_frequent_clear_winner
           [[("car", VStr "Civic")]; [("car", VStr "Camry")]; [("car", VStr "Camry")]]
           "car" (VStr "Camry") (VStr "Camry") 2 eq_refl Hin).
  intros u Hu Hne.
  apply elem_of_cons in Hu as [-> | Hu]; [vm_compute; lia|].
  apply elem_of_cons in Hu as [-> | Hu]; [vm_compute in Hne; discriminate|].
  apply elem_of_cons in Hu as [-> | Hu]; [vm_compute in Hne; discriminate|].
  by apply elem_of_nil in Hu.
Defined.

Section SearchAndFrequency.

Lemma occurrences_text_le_matches (key s : string) (data : list record) :
  occurrences (VStr s) (field_values key data)
  ≤ length (filter (field_matches key (VStr s)) data).
Proof.
  unfold field_values. induction data as [|r data IH]; [done|].
  rewrite filter_cons. cbn [omap list_omap].
  destruct (present key r) as [x|] eqn:Hp.
  - cbn [occurrences]. destruct (py_eq (VStr s) x) eqn:Hx.
    + destruct x as [| | |t| |]; try done. simpl in Hx.
      apply String.eqb_eq in Hx as <-.
      assert (Hget : dict_get r key = Some (VStr s)).
      { unfold present in Hp. destruct (dict_get r key) as [[]|]; congruence. }
      destruct (decide (field_matches key (VStr s) r)) as [_ | Hno]; [simpl; lia|].
      destruct Hno. unfold field_matches, field_text. rewrite Hget. apply substring_refl.
    + destruct (decide (field_matches key (VStr s) r)); simpl; lia.
  - destruct (decide (field_matches key (VStr s) r)); simpl; lia.
Qed.

End SearchAndFrequency.

(** X12. The two queries agree on a text winner: on a list of records whose
    first record has the field and on whose values for the field [str]
    returns, if [find_most_frequent_by_key] returns the string [s] with
    count [n], searching the field for [s] returns at least [n]
    records. *)
Theorem search_finds_most_frequent_text (data : list record) (key s : string)
    (n : nat) :
  first_has_key key data →
  Forall (field_has_text key) data →
  find_most_frequent_by_key (map VDict data) key = Ok (VStr s, n) →
  ∃ found,
    search_accidents (map VDict data) key (VStr s) = ([], Ok (map VDict found)) ∧
    n ≤ length found.
Proof.
  intros Hfirst Htexts Hres. exists (filter (field_matches key (VStr s)) data).
  split; [by apply search_accidents_filter|].
  rewrite find_most_frequent_by_key_items in Hres.
  destruct (field_values key data) as [|x items] eqn:Hitems; [done|].
  apply most_frequent_spec in Hres as (_ & _ & _ & -> & _); [|done].
  rewrite <- Hitems. apply occurrences_text_le_matches.
Qed.

Lemma search_finds_most_frequent_text_witness :
  let data := [[("city", VStr "Anytown")]; [("city", VStr "Old Anytown")];
               [("city", VStr "Anytown")]] in
  first_has_key "city" data ∧
  Forall (field_has_text "city") data ∧
  find_most_frequent_by_key (map VDict data) "city" = Ok (VStr "Anytown", 2) ∧
  ∃ found,
    search_accidents (map VDict data) "city" (VStr "Anytown")
    = ([], Ok (map VDict found)) ∧
    2 ≤ length found.
Proof.
  assert (Hfirst : first_has_key "city"
            [[("city", VStr "Anytown")]; [("city", VStr "Old Anytown")];
             [("city", VStr "Anytown")]]) by by eexists.
  assert (Htexts : Forall (field_has_text "city")
            [[("city", VStr "Anytown")]; [("city", VStr "Old Anytown")];
             [("city", VStr "Anytown")]]) by (by repeat constructor).
  split; [exact Hfirst|]. split; [exact Htexts|]. split; [reflexivity|].
  exact (search_finds_most_frequent_text
           [[("city", VStr "Anytown")]; [("city", VStr "Old Anytown")];
            [("city", VStr "Anytown")]] "city" "Anytown" 2 Hfirst Htexts eq_refl).
Defined.

(** X13. The two queries disagree on a field that the first record lacks:
    [search_accidents] reports the key as missing and returns nothing,
    while [find_most_frequent_by_key] counts the later records that have
    it. *)
Theorem first_record_decides_search_only (data : list record) (key : string)
    (query : value) :
  first_lacks_key key data →
  field_values key data ≠ [] →
  Forall (λ x, hashable x = true) (field_values key data) →
  search_accidents (map VDict data) key query = ([OutKeyNotFound key], Ok []) ∧
  ∃ v n, find_most_frequent_by_key (map VDict data) key = Ok (v, n) ∧ 1 ≤ n.
Proof.
  intros Hlacks Hne Hall. split; [by apply search_accidents_no_key|].
  rewrite find_most_frequent_by_key_items.
  destruct (field_values key data) as [|x items] eqn:Hitems; [done|].
  destruct (most_frequent_total _ Hall) as [[v n] Hres]. exists v, n.
  split; [done|].
  by apply most_frequent_spec in Hres as (_ & _ & _ & _ & Hpos & _).
Qed.

Lemma first_record_decides_search_only_witness :
  let data := [[("id", VInt 1)]; [("id", VInt 2); ("city", VStr "Anytown")]] in
  first_lacks_key "city" data ∧
  field_values "city" data ≠ [] ∧
  Forall (λ x, hashable x = true) (field_values "city" data) ∧
  search_accidents (map VDict data) "city" (VStr "Anytown")
  = ([OutKeyNotFound "city"], Ok []) ∧
  ∃ v n, find_most_frequent_by_key (map VDict data) "city" = Ok (v, n) ∧ 1 ≤ n.
Proof.
  assert (Hall : Forall (λ x, hashable x = true)
            (field_values "city" [[("id", VInt 1)]; [("id", VInt 2); ("city", VStr "Anytown")]]))
    by (by repeat constructor).
  split; [reflexivity|]. split; [discriminate|]. split; [exact Hall|].
  apply (first_record_decides_search_only
           [[("id", VInt 1)]; [("id", VInt 2); ("city", VStr "Anytown")]]
           "city" (VStr "Anytown")); [reflexivity | discriminate | exact Hall].
Defined.

(** * Further properties of the program *)

(** ** What the decoder returns *)

Section DecoderFacts.

Import Json.

Lemma within_dict_set (pairs : record) (key : string) (v : value) :
  within_digit_limit (VDict pairs) = true → within_digit_limit v = true →
  within_digit_limit (VDict (dict_set pairs key v)) = true.
Proof.
  cbn [within_digit_limit]. induction pairs as [|[k x] pairs IH]; simpl; intros Hp Hv.
  - by rewrite Hv.
  - apply andb_true_iff in Hp as [Hx Hp]. destruct (String.eqb k key); simpl.
    + by rewrite Hv, Hp.
    + by rewrite Hx, IH.
Qed.

Lemma within_snoc (values : list value) (v : value) :
  within_digit_limit (VList values) = true → within_digit_limit v = true →
  within_digit_limit (VList (values ++ [v])) = true.
Proof.
  cbn [within_digit_limit]. rewrite forallb_app. simpl. by intros -> ->.
Qed.

Lemma scan_atom_within (s : string) (v : value) (rest : string) :
  scan_atom s = Got v rest → within_digit_limit v = true.
Proof.
  unfold scan_atom.
  destruct (strip_prefix "null" s); [by intros [= <- _]|].
  destruct (strip_prefix "true" s); [by intros [= <- _]|].
  destruct (strip_prefix "false" s); [by intros [= <- _]|].
  destruct (_ || _); [done|].
  unfold match_number.
  destruct (match s with "" => _ | String c r => _ end) as [negative body].
  assert (Hfinish : ∀ n r,
            (if float_follows r then Beyond
             else if within_digit_limit (VInt n)
                  then Got (VInt (if negative then (- n)%Z else n)) r
                  else TooLong) = Got v rest →
            within_digit_limit v = true).
  { intros n r. destruct (float_follows r); [done|].
    destruct (within_digit_limit (VInt n)) eqn:Hn; [|done]. intros [= <- _].
    destruct negative; [|done]. simpl in *. by rewrite Z.abs_opp. }
  destruct body as [|c r]; [done|].
  destruct (Ascii.eqb c "0"); [apply Hfinish|].
  destruct (is_digit c); [|done].
  destruct (take_digits r (digit_val c)) as [n r']. apply Hfinish.
Qed.

Ltac split_match H :=
  match type of H with
  | context [match ?x with _ => _ end] => destruct x eqn:?; try discriminate H
  | context [if ?x then _ else _] => destruct x eqn:?; try discriminate H
  end.

(** The scanner and its two loops only build values whose integers went
    through the digit check. *)
Lemma scan_within (fuel : nat) :
  (∀ depth s v rest, scan_once depth fuel s = Got v rest → within_digit_limit v = true) ∧
  (∀ depth s pairs v rest, within_digit_limit (VDict pairs) = true →
     object_loop depth fuel s pairs = Got v rest → within_digit_limit v = true) ∧
  (∀ depth s values v rest, within_digit_limit (VList values) = true →
     array_loop depth fuel s values = Got v rest → within_digit_limit v = true).
Proof.
  induction fuel as [|fuel (IHscan & IHobject & IHarray)]; [by repeat split|].
  split; [|split].
  - intros depth s v rest H. cbn [scan_once] in H.
    destruct s as [|c s']; [done|].
    destruct (Ascii.eqb c Text.dquote).
    { destruct (scanstring s'); try done. by injection H as <- _. }
    destruct (Ascii.eqb c "{").
    { destruct depth as [|depth]; [done|].
      assert (Hloop : ∀ body, object_loop depth fuel body [] = Got v rest →
                              within_digit_limit v = true)
        by (intros body; by apply IHobject).
      repeat split_match H; try (by eapply Hloop); by injection H as <- _. }
    destruct (Ascii.eqb c "[").
    { destruct depth as [|depth]; [done|].
      assert (Hloop : ∀ body, array_loop depth fuel body [] = Got v rest →
                              within_digit_limit v = true)
        by (intros body; by apply IHarray).
      repeat split_match H; try (by eapply Hloop); by injection H as <- _. }
    by eapply scan_atom_within.
  - intros depth s pairs v rest Hpairs H. cbn [object_loop] in H.
    destruct s as [|c s']; [done|].
    destruct (Ascii.eqb c Text.dquote); [|done].
    destruct (scanstring s') as [key after_key| | |]; try done.
    destruct (skip_ws after_key) as [|c1 after_colon] eqn:Hcolon; [done|].
    destruct (scan_once depth fuel (skip_ws after_colon)) as [x after_value| | |] eqn:Hx.
    2-4: repeat split_match H.
    apply IHscan in Hx.
    pose proof (within_dict_set pairs key x Hpairs Hx) as Hset.
    assert (Hloop : ∀ body, object_loop depth fuel body (dict_set pairs key x) = Got v rest →
                            within_digit_limit v = true)
      by (intros body; by apply IHobject).
    repeat split_match H; try (by eapply Hloop); by injection H as <- _.
  - intros depth s values v rest Hvalues H. cbn [array_loop] in H.
    destruct (scan_once depth fuel s) as [x after_value| | |] eqn:Hx; try done.
    apply IHscan in Hx.
    pose proof (within_snoc values x Hvalues Hx) as Hsnoc.
    assert (Hloop : ∀ body, array_loop depth fuel body (values ++ [x]) = Got v rest →
                            within_digit_limit v = true)
      by (intros body; by apply IHarray).
    repeat split_match H; try (by eapply Hloop); by injection H as <- _.
Qed.

(** [str] returns on everything [json.load] returns. *)
Lemma loads_within_limit (text : string) (v : value) :
  loads text = Loaded v → within_digit_limit v = true.
Proof.
  unfold loads.
  destruct (scan_once _ _ _) as [obj rest| | |] eqn:Hscan; try done.
  destruct (skip_ws rest); [|done]. intros [= <-].
  by eapply (proj1 (scan_within _)).
Qed.

Lemma loaded_records_have_text (text : string) (data : list record) :
  loads text = Loaded (VList (map VDict data)) → Forall record_has_text data.
Proof.
  intros Hload. apply loads_within_limit in Hload. cbn [within_digit_limit] in Hload.
  rewrite forallb_forall in Hload. apply Forall_forall. intros r Hr.
  apply Hload. apply in_map. by apply list_elem_of_In.
Qed.

End DecoderFacts.

Section RunFacts.

Lemma record_value_has_text (r : record) (key : string) (v : value) :
  record_has_text r → dict_get r key = Some v → within_digit_limit v = true.
Proof.
  unfold record_has_text. cbn [within_digit_limit].
  induction r as [|[k x] r IH]; simpl; [done|]. intros Hr Hv.
  apply andb_true_iff in Hr as [Hx Hr].
  destruct (String.eqb k key); [by injection Hv as <- | by apply IH].
Qed.

Lemma record_field_has_text (key : string) (r : record) :
  record_has_text r → field_has_text key r.
Proof.
  intros Hr. unfold field_has_text. destruct (dict_get r key) as [v|] eqn:Hv; [|done].
  by apply (record_value_has_text r key).
Qed.

Lemma format_returns (v : value) :
  within_digit_limit v = true → format v = ([], Ok tt).
Proof. intros Hv. unfold format, eval. by rewrite py_str_returns. Qed.

Lemma pbind_result {A B} (m : printing A) (k : A → printing B) (a : A) :
  m.2 = Ok a → (pbind m k).2 = (k a).2.
Proof.
  destruct m as [out [a'|e]]; simpl; [|done]. intros [= ->]. by destruct (k a).
Qed.

Lemma print_results_completes (found : list record) :
  Forall has_report_fields found → Forall record_has_text found →
  (print_results (map VDict found)).2 = Ok tt.
Proof.
  induction 1 as [|r found ([id Hid] & [car Hcar] & [dt Hdt]) _ IH]; [done|].
  intros Htexts. apply Forall_cons in Htexts as [Hr Htexts].
  cbn [map print_results py_getitem eval]. rewrite Hid, Hcar, Hdt.
  rewrite (pbind_result _ _ id) by done.
  rewrite (format_returns id) by (by apply (record_value_has_text r "id")).
  rewrite (pbind_result _ _ tt) by done.
  rewrite (pbind_result _ _ car) by done.
  rewrite (format_returns car) by (by apply (record_value_has_text r "car")).
  rewrite (pbind_result _ _ tt) by done.
  rewrite (pbind_result _ _ dt) by done.
  rewrite (format_returns dt) by (by apply (record_value_has_text r "date_time")).
  rewrite (pbind_result _ _ tt) by done.
  rewrite (pbind_result _ _ tt) by done.
  by apply IH.
Qed.

(** On a list of records with string forms the search always returns, and
    what it returns are records of the list. *)
Lemma search_accidents_records (data : list record) (key : string) (query : value) :
  within_digit_limit query = true → Forall (field_has_text key) data →
  ∃ found, (search_accidents (map VDict data) key query).2 = Ok (map VDict found)
           ∧ sublist found data.
Proof.
  intros Hquery Htexts. destruct data as [|r data].
  - by exists [].
  - destruct (dict_get r key) as [v|] eqn:Hr.
    + exists (filter (field_matches key query) (r :: data)).
      rewrite search_accidents_filter by (done || by eexists).
      split; [done | apply sublist_filter].
    + exists []. rewrite search_accidents_no_key by done.
      split; [done | apply sublist_nil_l].
Qed.

Lemma find_most_frequent_returns (data : list record) (key : string) :
  Forall (λ x, hashable x = true) (field_values key data) →
  ∃ e, find_most_frequent_by_key (map VDict data) key = Ok e.
Proof.
  intros Hall. rewrite find_most_frequent_by_key_items.
  destruct (field_values key data) as [|x items] eqn:Hitems; [by eexists|].
  by apply most_frequent_total.
Qed.

(** The value that the frequency query returns has a string form when the
    records have. *)
Lemma find_most_frequent_has_text (data : list record) (key : string) (e : value * nat) :
  Forall record_has_text data →
  find_most_frequent_by_key (map VDict data) key = Ok e →
  within_digit_limit e.1 = true.
Proof.
  intros Htexts. rewrite find_most_frequent_by_key_items.
  destruct (field_values key data) as [|x items] eqn:Hitems; [by intros [= <-]|].
  destruct e as [v n]. intros Hres.
  apply most_frequent_spec in Hres as (pre & post & Hsplit & _); [|done].
  assert (Hin : v ∈ field_values key data).
  { rewrite Hitems, Hsplit. apply elem_of_app. right. by left. }
  apply field_values_from_record in Hin as (r & Hr & Hv).
  rewrite Forall_forall in Htexts. by apply (record_value_has_text r key v (Htexts r Hr)).
Qed.

Lemma analyze_completes (data : list record) :
  Forall record_has_text data →
  Forall has_report_fields data →
  Forall (λ x, hashable x = true) (field_values "city" data) →
  Forall (λ x, hashable x = true) (field_values "car" data) →
  (analyze (VList (map VDict data))).2 = Ok tt.
Proof.
  intros Htexts Hfields Hcity Hcar. unfold analyze.
  rewrite (pbind_result _ _ tt) by done.
  rewrite (pbind_result _ _ tt) by done.
  destruct (search_accidents_records data "city" (VStr "Anytown")) as (found & Hfound & Hsub);
    [done | |].
  { eapply Forall_impl; [exact Htexts|]. intros r. apply record_field_has_text. }
  rewrite (pbind_result _ _ (map VDict found)) by done.
  rewrite (pbind_result _ _ tt) by done.
  rewrite (pbind_result _ _ tt).
  2:{ apply print_results_completes; rewrite Forall_forall in Hfields, Htexts |- *;
        intros r Hr; [apply Hfields | apply Htexts]; by eapply elem_of_sublist. }
  rewrite (pbind_result _ _ tt) by done.
  destruct (find_most_frequent_returns data "city" Hcity) as [city Hc].
  rewrite (pbind_result _ _ city) by (by rewrite Hc).
  rewrite (pbind_result _ _ tt) by done.
  rewrite (format_returns city.1) by (by apply (find_most_frequent_has_text data "city")).
  rewrite (pbind_result _ _ tt) by done.
  rewrite (pbind_result _ _ tt) by done.
  rewrite (pbind_result _ _ tt) by done.
  destruct (find_most_frequent_returns data "car" Hcar) as [car Hk].
  rewrite (pbind_result _ _ car) by (by rewrite Hk).
  rewrite (pbind_result _ _ tt) by done.
  rewrite (format_returns car.1) by (by apply (find_most_frequent_has_text data "car")).
  rewrite (pbind_result _ _ tt) by done.
  by rewrite (pbind_result _ _ tt).
Qed.

End RunFacts.

(** X14. A run never touches another file, whatever happened to the write,
    to the read, to the removal and in the analysis; and when the removal
    goes through, the file system afterwards is the one before with the
    data file gone. *)
Theorem main_only_removes_data_file (w : write_outcome) (rd : read_outcome)
    (rm : remove_outcome) (fs : files) :
  (∀ path, path ≠ json_filename → (main w rd rm fs).1 !! path = fs !! path) ∧
  (main w rd RemoveOk fs).1 = delete json_filename fs.
Proof.
  assert (Hfs : ∀ rm', (main w rd rm' fs).1
                = match rm' with
                  | RemoveOk => delete json_filename (create_dummy_json w json_filename fs).1
                  | RemoveFails => (create_dummy_json w json_filename fs).1
                  end).
  { intros rm'. unfold main.
    destruct (create_dummy_json w json_filename fs) as [fs1 out1].
    pose proof (read_and_analyze_fs rd rm' json_filename fs1) as Hraj.
    by destruct (read_and_analyze_json_file rd rm' json_filename fs1). }
  split.
  - intros path Hpath. rewrite Hfs. unfold create_dummy_json.
    destruct rm, w as [|[text|]]; simpl;
      rewrite ?lookup_delete_ne, ?lookup_insert_ne by done; done.
  - rewrite Hfs. unfold create_dummy_json. destruct w as [|[text|]]; simpl.
    + apply delete_insert_eq.
    + apply delete_insert_eq.
    + apply map_eq. intros path. destruct (decide (path = json_filename)) as [-> | Hne].
      * by rewrite !lookup_delete_eq.
      * by rewrite !lookup_delete_ne.
Qed.

(** X15. When the write and the read go through, the run prints the same
    report whatever the file system held before, a previous data file
    included: the file is overwritten and analysed. Then it is removed and
    the last line says so, or the removal fails: the file stays, with the
    text written, and the error leaves the program. *)
Theorem main_report (rm : remove_outcome) (fs : files) :
  let report :=
    [ OutCreated json_filename; OutReading json_filename;
      OutTotal 8; OutRule; OutAnalysis1 "Anytown" 4;
      OutResult (VInt 1) (VStr "Toyota Camry") (VStr "2024-10-25 08:30");
      OutResult (VInt 3) (VStr "Ford F-150") (VStr "2024-10-26 10:00");
      OutResult (VInt 6) (VStr "Honda Civic") (VStr "2024-10-27 12:00");
      OutResult (VInt 8) (VStr "Ford F-150") (VStr "2024-10-28 14:00");
      OutRule; OutAnalysis2; OutCity (VStr "Anytown") 4; OutRule;
      OutAnalysis3; OutCar (VStr "Toyota Camry") 3; OutRule ] in
  main WriteOk ReadOk rm fs
  = match rm with
    | RemoveOk =>
        (delete json_filename fs, Some (report ++ [OutCleaned json_filename], Ok tt))
    | RemoveFails =>
        (<[json_filename := Json.dumps (VList dummy_data) 4]> fs,
         Some (report, Raise OSError))
    end.
Proof.
  intros report.
  unfold main, create_dummy_json, read_and_analyze_json_file, cleanup.
  rewrite lookup_insert_eq.
  assert (Htry : try_block ReadOk (Json.dumps (VList dummy_data) 4)
                 = Some (skipn 2 report, Ok tt))
    by (vm_compute; reflexivity).
  rewrite Htry. destruct rm.
  - rewrite delete_insert_eq. reflexivity.
  - reflexivity.
Qed.

(** X16. A file whose text decodes to a list of records, each with the
    fields [id], [car] and [date_time], and with no list or dict as a
    [city] or [car] value, is analysed to the end: no exception is raised
    in the analysis. After the report the file is removed and the clean-up
    line printed, or the removal fails and its error leaves the
    function. *)
Theorem analysis_completes (rm : remove_outcome) (filename text : string)
    (fs : files) (data : list record) :
  fs !! filename = Some text →
  Json.loads text = Json.Loaded (VList (map VDict data)) →
  Forall has_report_fields data →
  Forall (λ x, hashable x = true) (field_values "city" data) →
  Forall (λ x, hashable x = true) (field_values "car" data) →
  ∃ report,
    analyze (VList (map VDict data)) = (report, Ok tt) ∧
    read_and_analyze_json_file ReadOk rm filename fs
    = match rm with
      | RemoveOk =>
          (delete filename fs,
           Some (OutReading filename :: report ++ [OutCleaned filename], Ok tt))
      | RemoveFails => (fs, Some (OutReading filename :: report, Raise OSError))
      end.
Proof.
  intros Hfs Hload Hfields Hcity Hcar.
  pose proof (loaded_records_have_text text data Hload) as Htexts.
  pose proof (analyze_completes data Htexts Hfields Hcity Hcar) as Hok.
  destruct (analyze (VList (map VDict data))) as [report r] eqn:Hrun.
  simpl in Hok. subst r. exists report. split; [done|].
  unfold read_and_analyze_json_file, cleanup, try_block.
  rewrite Hfs, Hload, Hrun. destruct rm; simpl; [done|]. by rewrite app_nil_r.
Qed.

Lemma analysis_completes_witness :
  let data := [[("id", VInt 1); ("car", VStr "Civic"); ("date_time", VStr "2024-10-25")]] in
  let text := Json.dumps (VList (map VDict data)) 4 in
  let fs : files := {[ "data.json" := text ]} in
  fs !! "data.json" = Some text ∧
  Json.loads text = Json.Loaded (VList (map VDict data)) ∧
  Forall has_report_fields data ∧
  ∃ report,
    analyze (VList (map VDict data)) = (report, Ok tt) ∧
    read_and_analyze_json_file ReadOk RemoveOk "data.json" fs
    = (delete "data.json" fs,
       Some (OutReading "data.json" :: report ++ [OutCleaned "data.json"], Ok tt)).
Proof.
  assert (Hfields : Forall has_report_fields
            [[("id", VInt 1); ("car", VStr "Civic"); ("date_time", VStr "2024-10-25")]]).
  { constructor; [|constructor]. repeat split; by eexists. }
  split; [reflexivity|]. split; [vm_compute; reflexivity|]. split; [exact Hfields|].
  apply (analysis_completes RemoveOk "data.json"
           (Json.dumps (VList (map VDict
              [[("id", VInt 1); ("car", VStr "Civic"); ("date_time", VStr "2024-10-25")]])) 4)
           _
           [[("id", VInt 1); ("car", VStr "Civic"); ("date_time", VStr "2024-10-25")]]).
  - reflexivity.
  - vm_compute. reflexivity.
  - exact Hfields.
  - by repeat constructor.
  - by repeat constructor.
Defined.

(** X17. A file whose text decodes to the empty list is analysed without
    error: zero records, the search reports the key as missing and finds
    nothing, both frequency queries give [(None, 0)]. Then the file is
    removed and the clean-up line printed, or the removal fails and its
    error leaves the function. *)
Theorem empty_list_report (rm : remove_outcome) (filename text : string) (fs : files) :
  fs !! filename = Some text →
  Json.loads text = Json.Loaded (VList []) →
  let report :=
    [ OutReading filename; OutTotal 0; OutRule; OutKeyNotFound "city";
      OutAnalysis1 "Anytown" 0; OutRule; OutAnalysis2; OutCity VNone 0;
      OutRule; OutAnalysis3; OutCar VNone 0; OutRule ] in
  read_and_analyze_json_file ReadOk rm filename fs
  = match rm with
    | RemoveOk => (delete filename fs, Some (report ++ [OutCleaned filename], Ok tt))
    | RemoveFails => (fs, Some (report, Raise OSError))
    end.
Proof.
  intros Hfs Hload report. unfold read_and_analyze_json_file, cleanup, try_block.
  rewrite Hfs, Hload. by destruct rm.
Qed.

Lemma empty_list_report_witness :
  let fs : files := {[ "data.json" := " [ ] " ]} in
  fs !! "data.json" = Some " [ ] " ∧
  Json.loads " [ ] " = Json.Loaded (VList []) ∧
  read_and_analyze_json_file ReadOk RemoveOk "data.json" fs
  = (delete "data.json" fs,
     Some ([ OutReading "data.json"; OutTotal 0; OutRule; OutKeyNotFound "city";
             OutAnalysis1 "Anytown" 0; OutRule; OutAnalysis2; OutCity VNone 0;
             OutRule; OutAnalysis3; OutCar VNone 0; OutRule; OutCleaned "data.json" ],
           Ok tt)).
Proof.
  split; [reflexivity|]. split; [reflexivity|].
  apply (empty_list_report RemoveOk "data.json" " [ ] " {[ "data.json" := " [ ] " ]});
    reflexivity.
Defined.

Section ReportFacts.

Lemma pbind_returns {A B} (m : printing A) (k : A → printing B) (out : list output) (a : A) :
  m = (out, Ok a) → pbind m k = (out ++ (k a).1, (k a).2).
Proof. intros ->. simpl. by destruct (k a). Qed.

Lemma pbind_raises {A B} (m : printing A) (k : A → printing B) (out : list output) (e : exc) :
  m = (out, Raise e) → pbind m k = (out, Raise e).
Proof. by intros ->. Qed.

(** The loop over the matches stops at the first record that lacks one of
    the three fields, having printed a line for each record before it. *)
Lemma pbind_unit {A B} (a : A) (k : A → printing B) : pbind ([], Ok a) k = k a.
Proof. simpl. by destruct (k a). Qed.

Lemma print_results_raises (found : list record) :
  Forall record_has_text found →
  Exists (λ r, ¬ has_report_fields r) found →
  ∃ lines, print_results (map VDict found) = (lines, Raise KeyError)
           ∧ length lines < length found ∧ Forall is_result_line lines.
Proof.
  induction found as [|r found IH]; intros Htexts Hex; [by apply Exists_nil in Hex|].
  apply Forall_cons in Htexts as [Hr Htexts].
  cbn [map print_results py_getitem]. unfold eval.
  destruct (dict_get r "id") as [id|] eqn:Hid.
  2:{ exists []. simpl. repeat split; [lia | done]. }
  rewrite pbind_unit, (format_returns id), pbind_unit
    by (by apply (record_value_has_text r "id")).
  destruct (dict_get r "car") as [car|] eqn:Hcar.
  2:{ exists []. simpl. repeat split; [lia | done]. }
  rewrite pbind_unit, (format_returns car), pbind_unit
    by (by apply (record_value_has_text r "car")).
  destruct (dict_get r "date_time") as [dt|] eqn:Hdt.
  2:{ exists []. simpl. repeat split; [lia | done]. }
  rewrite pbind_unit, (format_returns dt), pbind_unit
    by (by apply (record_value_has_text r "date_time")).
  apply Exists_cons in Hex as [Hbad | Hex].
  { destruct Hbad. unfold has_report_fields. rewrite Hid, Hcar, Hdt. by repeat split. }
  destruct (IH Htexts Hex) as (lines & Hrun & Hlen & Hlines).
  exists (OutResult id car dt :: lines). simpl. rewrite Hrun. simpl.
  repeat split; [lia | by constructor].
Qed.

End ReportFacts.

(** X18. When one of the records that match the demonstration search lacks
    [id], [car] or [date_time], the analysis raises [KeyError] in the
    middle of the report: after the head lines come only lines for
    matches, fewer than there are matches, and the frequency queries are
    not reached. The records are such that [str] returns on their values,
    as the records that [json.load] returns are. *)
Theorem report_needs_fields (data : list record) :
  Forall record_has_text data →
  first_has_key "city" data →
  Exists (λ r, ¬ has_report_fields r) (filter (field_matches "city" (VStr "Anytown")) data) →
  ∃ lines,
    analyze (VList (map VDict data))
    = (OutTotal (length data) :: OutRule
       :: OutAnalysis1 "Anytown"
            (length (filter (field_matches "city" (VStr "Anytown")) data))
       :: lines,
       Raise KeyError) ∧
    length lines < length (filter (field_matches "city" (VStr "Anytown")) data) ∧
    Forall is_result_line lines.
Proof.
  intros Htexts Hfirst Hex.
  assert (Hkept : Forall record_has_text
                    (filter (field_matches "city" (VStr "Anytown")) data)).
  { rewrite Forall_forall in Htexts |- *. intros r Hr. apply Htexts.
    by apply list_elem_of_filter in Hr as [_ ?]. }
  destruct (print_results_raises _ Hkept Hex) as (lines & Hrun & Hlen & Hlines).
  exists lines. split; [|done]. unfold analyze.
  rewrite (pbind_returns _ _ [OutTotal (length (map VDict data))] tt) by done.
  rewrite (pbind_returns _ _ [OutRule] tt) by done.
  rewrite (pbind_returns _ _ [] (map VDict (filter (field_matches "city" (VStr "Anytown")) data))).
  2:{ apply search_accidents_filter; [done | done |].
      eapply Forall_impl; [exact Htexts|]. intros r. apply record_field_has_text. }
  rewrite (pbind_returns _ _
             [OutAnalysis1 "Anytown"
                (length (map VDict (filter (field_matches "city" (VStr "Anytown")) data)))] tt)
    by done.
  rewrite (pbind_raises _ _ lines KeyError) by done.
  cbn [fst snd app]. by rewrite !length_map.
Qed.

Lemma report_needs_fields_witness :
  let data := [[("id", VInt 1); ("car", VStr "Civic"); ("date_time", VStr "2024-10-25");
                ("city", VStr "Anytown")];
               [("city", VStr "Anytown")]] in
  Forall record_has_text data ∧
  first_has_key "city" data ∧
  Exists (λ r, ¬ has_report_fields r)
    (filter (field_matches "city" (VStr "Anytown")) data) ∧
  ∃ lines,
    analyze (VList (map VDict data))
    = (OutTotal (length data) :: OutRule
       :: OutAnalysis1 "Anytown"
            (length (filter (field_matches "city" (VStr "Anytown")) data))
       :: lines,
       Raise KeyError) ∧
    length lines < length (filter (field_matches "city" (VStr "Anytown")) data) ∧
    Forall is_result_line lines.
Proof.
  assert (Htexts : Forall record_has_text
            [[("id", VInt 1); ("car", VStr "Civic"); ("date_time", VStr "2024-10-25");
              ("city", VStr "Anytown")];
             [("city", VStr "Anytown")]]) by (by repeat constructor).
  assert (Hfirst : first_has_key "city"
            [[("id", VInt 1); ("car", VStr "Civic"); ("date_time", VStr "2024-10-25");
              ("city", VStr "Anytown")];
             [("city", VStr "Anytown")]]) by by eexists.
  assert (Hex : Exists (λ r, ¬ has_report_fields r)
            (filter (field_matches "city" (VStr "Anytown"))
               [[("id", VInt 1); ("car", VStr "Civic"); ("date_time", VStr "2024-10-25");
                 ("city", VStr "Anytown")];
                [("city", VStr "Anytown")]])).
  { apply Exists_cons_tl, Exists_cons_hd. intros ([v Hv] & _). discriminate Hv. }
  split; [exact Htexts|]. split; [exact Hfirst|]. split; [exact Hex|].
  exact (report_needs_fields _ Htexts Hfirst Hex).
Defined.

(** A record whose [city] is an integer of 4301 digits, before a match
    without an [id]: the search raises [ValueError] at the first record,
    and the loop over the matches is not reached. *)
Example analyze_value_error :
  analyze (VList [VDict [("city", VInt (10 ^ 4300))]; VDict [("city", VStr "Anytown")]])
  = ([OutTotal 2; OutRule], Raise ValueError).
Proof. vm_compute. reflexivity. Qed.
